(** * Backstage: the core application shell and the GitHub template preparer

    A shallow embedding of

    - [packages/core/src/api/app/App.tsx]: the class [AppImpl]
      ([getRootComponent], [verify]) and the factory [createApp];
    - [plugins/scaffolder-backend/src/scaffolder/stages/prepare/github.ts]:
      [GithubPreparer.prepare].

    Methods of [AppImpl] are functions in a small state-and-exception monad
    whose state is the receiver [this]; [prepare] runs in a monad whose
    state is the outside world (git remote and file system) together with
    the journal of the operations performed on it. *)

From Stdlib Require Import Ascii String.
From stdpp Require Import base option list gmap strings fin_maps.

#[local] Set Warnings "-clear-no-such-hyp".

Local Open Scope string_scope.
Local Open Scope list_scope.
Local Open Scope stdpp_scope.

(** ** Outcomes of code that may throw *)

(** A JavaScript [Error] is identified with its message. *)
Record JsError := MkError { message : string }.

Inductive Outcome (A : Type) :=
| Returned (a : A)
| Thrown (e : JsError).
Arguments Returned {A} a.
Arguments Thrown {A} e.

(** * The application shell ([App.tsx]) *)
Module App.

(** Values [App.tsx] only passes around (React components, theme objects,
    icon components, the state of an API implementation other than its
    feature-flag list) are kept abstract. *)
Section app.
Context {Component Theme Icon ApiRest : Type}.

(** Values [App.tsx] imports from files that are not part of this
    development: the reference under which the feature-flag implementation
    is registered, two components, the default theme and the default
    icons. *)
Variable featureFlagsApiRef : string.
Variable LoginPage : Component.
Variable ErrorPage : string -> string -> Component.
Variable lightTheme : Theme.
Variable defaultSystemIcons : gmap string Icon.

(** ** Plugin outputs (the tagged union switched on by [getRootComponent]) *)

(** Modelled from the spec: the [options] of a route output, declared in
    [../plugin]: an object whose [exact] member may be absent. *)
Record RouteOptions := { exact : option bool }.

(** Modelled from the spec: the target of a nav-target output, declared in
    [../plugin]; [getRootComponent] reads its [path]. *)
Record RouteRef := { path : string }.

(** Modelled from the spec: the output descriptors of [../plugin], a union
    tagged by [type], with the members [getRootComponent] destructures;
    [options] may be absent. [OtherOutput ty] is a descriptor whose tag
    [ty] is a kind the switch has no case for. *)
Inductive PluginOutput :=
| RouteOutput (path : string) (component : Component)
              (options : option RouteOptions)
| NavTargetOutput (target : RouteRef) (component : Component)
                  (options : option RouteOptions)
| RedirectRouteOutput (path : string) (target : string)
                      (options : option RouteOptions)
| FeatureFlagOutput (name : string)
| OtherOutput (type : string).

Definition output_type (o : PluginOutput) : string :=
  match o with
  | RouteOutput _ _ _ => "route"
  | NavTargetOutput _ _ _ => "nav-target-component"
  | RedirectRouteOutput _ _ _ => "redirect-route"
  | FeatureFlagOutput _ => "feature-flag"
  | OtherOutput ty => ty
  end.

Definition recognized_types : list string :=
  ["route"; "nav-target-component"; "redirect-route"; "feature-flag"].

(** Modelled from the spec: a [BackstagePlugin] of [../plugin], as far as
    [App.tsx] calls it: its id and its ordered outputs. *)
Record BackstagePlugin := {
  getId : string;
  output : list PluginOutput
}.

(** Modelled from the spec: an entry of the feature-flag registry, declared
    in [./FeatureFlags]: the owning plugin's id and the flag's name. *)
Record FeatureFlagsRegistryItem := {
  pluginId : string;
  name : string
}.

(** ** The capability registry *)

(** Modelled from the spec: an API implementation held by the capability
    registry of [../apis]: its [registeredFeatureFlags] field, the one
    [getRootComponent] assigns, and the rest of its state. *)
Record ApiImpl := {
  registeredFeatureFlags : list FeatureFlagsRegistryItem;
  apiRest : ApiRest
}.

Definition set_registeredFeatureFlags
    (flags : list FeatureFlagsRegistryItem) (impl : ApiImpl) : ApiImpl :=
  {| registeredFeatureFlags := flags; apiRest := apiRest impl |}.

(** Modelled from the spec: the capability registry of [../apis], a finite
    map from API references to implementations; [ApiHolder.get ref] is the
    lookup [apis !! ref] and [ApiRegistry.from([])] the empty map. *)
Abbreviation ApiHolder := (gmap string ApiImpl).

(** ** Rendered elements *)

(** The elements [getRootComponent] builds, with the props it gives them; a
    prop left out of the JSX is [None]. *)
#[local] Unset Elimination Schemes.
Inductive Element :=
| Route (key : option string) (path : option string)
        (component : Component) (exact : option bool)
| Redirect (key : option string) (path : string) (to : string)
           (exact : option bool)
| Switch (children : list Element)
| ApiProvider (apis : ApiHolder) (children : Element).
#[local] Set Elimination Schemes.

(** ** Themes and the other options *)

(** Modelled from the spec: a theme entry of [../apis]: id, title, variant
    and the theme object. *)
Record AppTheme := {
  id : string;
  title : string;
  variant : string;
  theme : Theme
}.

(** Modelled from the spec: [AppOptions.themes] of [./types], either an
    ordered list of theme entries or a pair with optional [light] and
    [dark] members. *)
Inductive ThemesOption :=
| ThemeList (themes : list AppTheme)
| ThemePair (light dark : option Theme).

(** Modelled from the spec: the component overrides of [./types], with the
    one recognized key. *)
Record AppComponents := { NotFoundErrorPage : Component }.

(** Modelled from the spec: the overrides as [createApp] receives them,
    where the key may be absent. *)
Record PartialAppComponents := { NotFoundErrorPage_opt : option Component }.

(** Modelled from the spec: [AppOptions] of [./types], every member
    optional. *)
Record AppOptions := {
  opt_apis : option ApiHolder;
  opt_icons : option (gmap string Icon);
  opt_plugins : option (list BackstagePlugin);
  opt_components : option PartialAppComponents;
  opt_themes : option ThemesOption
}.

(** ** [AppImpl] *)

(** The fields set by the constructor. [getRootComponent] tests
    [this.apis] before using it, so the field may be absent. *)
Record AppImpl := {
  apis : option ApiHolder;
  icons : gmap string Icon;
  plugins : list BackstagePlugin;
  components : AppComponents;
  themes : list AppTheme
}.

Definition set_apis (a : option ApiHolder) (this : AppImpl) : AppImpl :=
  {| apis := a; icons := icons this; plugins := plugins this;
     components := components this; themes := themes this |}.

(** A method: it reads and writes its receiver and returns or throws. *)
Definition Method (A : Type) : Type := AppImpl -> Outcome A * AppImpl.

Definition ret {A} (a : A) : Method A := fun this => (Returned a, this).

Definition throw {A} (e : JsError) : Method A := fun this => (Thrown e, this).

Definition bind {A B} (m : Method A) (k : A -> Method B) : Method B :=
  fun this =>
    match m this with
    | (Returned a, this') => k a this'
    | (Thrown e, this') => (Thrown e, this')
    end.

Definition read {A} (field : AppImpl -> A) : Method A :=
  fun this => (Returned (field this), this).

Definition write (upd : AppImpl -> AppImpl) : Method unit :=
  fun this => (Returned tt, upd this).

Notation "'let*' x := m 'in' k" := (bind m (fun x => k))
  (at level 10, x name, m at level 100, k at level 200).
Notation "m ;; k" := (bind m (fun _ => k))
  (at level 100, k at level 200, right associativity).

(** *** [getRootComponent] *)

(** The two arrays the loops push to. *)
Record Collected := {
  routes : list Element;
  registeredFlags : list FeatureFlagsRegistryItem
}.

Definition push_route (e : Element) (c : Collected) : Collected :=
  {| routes := routes c ++ [e]; registeredFlags := registeredFlags c |}.

Definition push_flag (f : FeatureFlagsRegistryItem) (c : Collected)
  : Collected :=
  {| routes := routes c; registeredFlags := registeredFlags c ++ [f] |}.

(** [const { exact = true } = options] after [options = {}]. *)
Definition exact_of (options : option RouteOptions) : bool :=
  match options with
  | None => true
  | Some o => match exact o with None => true | Some b => b end
  end.

(** The body of the [switch (output.type)]. *)
Definition process_output (plugin : BackstagePlugin) (o : PluginOutput)
    (c : Collected) : Collected :=
  match o with
  | RouteOutput path component options =>
      push_route (Route (Some path) (Some path) component
                        (Some (exact_of options))) c
  | NavTargetOutput target component options =>
      push_route (Route (Some (getId plugin +:+ "-" +:+ path target))
                        (Some (path target)) component
                        (Some (exact_of options))) c
  | RedirectRouteOutput path target options =>
      push_route (Redirect (Some path) path target
                           (Some (exact_of options))) c
  | FeatureFlagOutput name =>
      push_flag {| pluginId := getId plugin; name := name |} c
  | OtherOutput _ => c
  end.

(** The two nested [for ... of] loops. *)
Definition collect (ps : list BackstagePlugin) (c : Collected) : Collected :=
  fold_left
    (fun c plugin => fold_left (fun c o => process_output plugin o c)
                               (output plugin) c)
    ps c.

Definition login_route : Element :=
  Route (Some "login") (Some "/login") LoginPage (Some true).

Definition getRootComponent : Method Element :=
  let* ps := read plugins in
  let* comps := read components in
  let c := collect ps {| routes := []; registeredFlags := [] |} in
  let* a := read apis in
  (match a with
   | Some holder =>
       match holder !! featureFlagsApiRef with
       | Some FeatureFlags =>
           write (set_apis
                    (Some (<[featureFlagsApiRef :=
                               set_registeredFeatureFlags (registeredFlags c)
                                                          FeatureFlags]>
                             holder)))
       | None => ret tt
       end
   | None => ret tt
   end) ;;
  let routes := routes c ++ [login_route] in
  let rendered :=
    Switch (routes ++ [Route None None (NotFoundErrorPage comps) None]) in
  let* a := read apis in
  ret (match a with
       | Some holder => ApiProvider holder rendered
       | None => rendered
       end).

(** *** [verify] *)

Definition duplicate_plugin (id : string) : JsError :=
  MkError ("Duplicate plugin found '" +:+ id +:+ "'").

(** The loop of [verify], entered with the set [pluginIds] built so far. *)
Fixpoint verify_loop (pluginIds : gset string) (ps : list BackstagePlugin)
  : Method unit :=
  match ps with
  | [] => ret tt
  | plugin :: rest =>
      let id := getId plugin in
      if decide (id ∈ pluginIds)
      then throw (duplicate_plugin id)
      else verify_loop (pluginIds ∪ {[id]}) rest
  end.

Definition verify : Method unit :=
  let* ps := read plugins in
  verify_loop ∅ ps.

(** ** [createApp] *)

(** [options?.field]. *)
Definition opt_get {A} (field : AppOptions -> option A)
    (options : option AppOptions) : option A :=
  match options with
  | Some o => field o
  | None => None
  end.

Definition light_entry (t : Theme) : AppTheme :=
  {| id := "light"; title := "Light Theme"; variant := "light"; theme := t |}.

Definition dark_entry (t : Theme) : AppTheme :=
  {| id := "dark"; title := "Dark Theme"; variant := "dark"; theme := t |}.

Definition default_entry : AppTheme :=
  {| id := "light"; title := "Default Theme"; variant := "light";
     theme := lightTheme |}.

(** The statements of [createApp] that fill the [themes] array. *)
Definition resolve_themes (options : option AppOptions) : list AppTheme :=
  let themes :=
    match opt_get opt_themes options with
    | Some (ThemeList l) => [] ++ l
    | Some (ThemePair light dark) =>
        let themes :=
          match light with Some t => [light_entry t] | None => [] end in
        match dark with Some t => themes ++ [dark_entry t] | None => themes end
    | None => []
    end in
  if decide (length themes = 0) then themes ++ [default_entry] else themes.

Definition createApp (options : option AppOptions) : Outcome AppImpl :=
  let DefaultNotFoundPage := ErrorPage "404" "PAGE NOT FOUND" in
  let apis := default (∅ : ApiHolder) (opt_get opt_apis options) in
  let icons := default ∅ (opt_get opt_icons options) ∪ defaultSystemIcons in
  let plugins := default [] (opt_get opt_plugins options) in
  let components :=
    {| NotFoundErrorPage :=
         default DefaultNotFoundPage
                 (match opt_get opt_components options with
                  | Some cs => NotFoundErrorPage_opt cs
                  | None => None
                  end) |} in
  let themes := resolve_themes options in
  let app := {| apis := Some apis; icons := icons; plugins := plugins;
                components := components; themes := themes |} in
  match verify app with
  | (Returned _, app) => Returned app
  | (Thrown e, _) => Thrown e
  end.

(** ** Reading a build *)

(** The children of the [Switch] of a rendered root, looked for below the
    [ApiProvider] wrapper when there is one. *)
Fixpoint route_list (e : Element) : list Element :=
  match e with
  | Switch children => children
  | ApiProvider _ children => route_list children
  | _ => []
  end.

Definition element_exact (e : Element) : option bool :=
  match e with
  | Route _ _ _ exact => exact
  | Redirect _ _ _ exact => exact
  | _ => None
  end.

Definition not_found_route (this : AppImpl) : Element :=
  Route None None (NotFoundErrorPage (components this)) None.

(** The outputs that make a route entry, and their [options]. *)
Definition routing_options (o : PluginOutput)
  : option (option RouteOptions) :=
  match o with
  | RouteOutput _ _ options => Some options
  | NavTargetOutput _ _ options => Some options
  | RedirectRouteOutput _ _ options => Some options
  | _ => None
  end.

(** ** The route table and the flag list as the design describes them

    One entry per route, nav-target and redirect output, one flag per
    feature-flag output, plugins in installation order and the outputs of a
    plugin in declaration order. [collect] is compared with these. *)

Definition spec_entry (plugin : BackstagePlugin) (o : PluginOutput)
  : option Element :=
  match o with
  | RouteOutput path component options =>
      Some (Route (Some path) (Some path) component (Some (exact_of options)))
  | NavTargetOutput target component options =>
      Some (Route (Some (getId plugin +:+ "-" +:+ path target))
                  (Some (path target)) component (Some (exact_of options)))
  | RedirectRouteOutput path target options =>
      Some (Redirect (Some path) path target (Some (exact_of options)))
  | _ => None
  end.

Definition spec_flag (plugin : BackstagePlugin) (o : PluginOutput)
  : option FeatureFlagsRegistryItem :=
  match o with
  | FeatureFlagOutput name => Some {| pluginId := getId plugin; name := name |}
  | _ => None
  end.

Definition spec_entries (ps : list BackstagePlugin) : list Element :=
  flat_map (fun plugin => omap (spec_entry plugin) (output plugin)) ps.

Definition spec_flags (ps : list BackstagePlugin)
  : list FeatureFlagsRegistryItem :=
  flat_map (fun plugin => omap (spec_flag plugin) (output plugin)) ps.

Definition set_plugins (ps : list BackstagePlugin) (this : AppImpl) : AppImpl :=
  {| apis := apis this; icons := icons this; plugins := ps;
     components := components this; themes := themes this |}.

Definition plugin_ids (ps : list BackstagePlugin) : list string :=
  getId <$> ps.

(** ** The loops of [getRootComponent] against the design's lists *)

Lemma outputs_fold plugin os c :
  fold_left (fun c o => process_output plugin o c) os c =
  {| routes := routes c ++ omap (spec_entry plugin) os;
     registeredFlags := registeredFlags c ++ omap (spec_flag plugin) os |}.
Proof.
  revert c. induction os as [|o os IH]; intros [rs fs]; simpl.
  - by rewrite !app_nil_r.
  - rewrite IH. destruct o; simpl; by rewrite <- ?app_assoc.
Qed.

Lemma collect_spec ps c :
  collect ps c =
  {| routes := routes c ++ spec_entries ps;
     registeredFlags := registeredFlags c ++ spec_flags ps |}.
Proof.
  unfold collect, spec_entries, spec_flags.
  revert c. induction ps as [|p ps IH]; intros [rs fs]; simpl.
  - by rewrite !app_nil_r.
  - rewrite outputs_fold, IH. simpl. by rewrite <- !app_assoc.
Qed.

(** What one call of [getRootComponent] returns and leaves behind, by the
    state of the registry. *)
Lemma getRootComponent_run this :
  let children :=
    spec_entries (plugins this) ++ [login_route; not_found_route this] in
  getRootComponent this =
  match apis this with
  | Some holder =>
      match holder !! featureFlagsApiRef with
      | Some FeatureFlags =>
          let holder' :=
            <[featureFlagsApiRef :=
                set_registeredFeatureFlags (spec_flags (plugins this))
                                           FeatureFlags]> holder in
          (Returned (ApiProvider holder' (Switch children)),
           set_apis (Some holder') this)
      | None => (Returned (ApiProvider holder (Switch children)), this)
      end
  | None => (Returned (Switch children), this)
  end.
Proof.
  unfold getRootComponent, bind, read, write, ret, not_found_route.
  rewrite collect_spec. simpl.
  destruct (apis this) as [holder|] eqn:Ha; simpl.
  - destruct (holder !! featureFlagsApiRef) as [ff|] eqn:Hff; simpl.
    + by rewrite <- app_assoc.
    + by rewrite Ha, <- app_assoc.
  - by rewrite Ha, <- app_assoc.
Qed.

Lemma getRootComponent_routes this :
  exists rendered,
    (getRootComponent this).1 = Returned rendered /\
    route_list rendered =
      spec_entries (plugins this) ++ [login_route; not_found_route this].
Proof.
  rewrite getRootComponent_run. simpl.
  destruct (apis this) as [holder|]; [|by eexists].
  destruct (holder !! featureFlagsApiRef); by eexists.
Qed.

(** ** The loop of [verify] *)

Lemma verify_loop_state ps seen this : (verify_loop seen ps this).2 = this.
Proof.
  revert seen. induction ps as [|p ps IH]; intros seen; simpl; [done|].
  case_decide; [done|]. apply IH.
Qed.

Lemma verify_loop_unique ps seen this :
  NoDup (plugin_ids ps) ->
  (forall x, x ∈ plugin_ids ps -> x ∉ seen) ->
  (verify_loop seen ps this).1 = Returned tt.
Proof.
  revert seen. induction ps as [|p ps IH]; intros seen Hnd Hfresh; [done|].
  simpl in *. apply NoDup_cons in Hnd as [Hp Hnd].
  case_decide as Hin.
  - exfalso. apply (Hfresh (getId p)); [left | done].
  - apply IH; [done|]. intros x Hx. specialize (Hfresh x).
    assert (x ≠ getId p) by (intros ->; done). set_solver.
Qed.

Lemma verify_loop_duplicate ps seen this l1 x l2 :
  plugin_ids ps = l1 ++ x :: l2 ->
  NoDup l1 ->
  (forall y, y ∈ l1 -> y ∉ seen) ->
  x ∈ l1 \/ x ∈ seen ->
  (verify_loop seen ps this).1 = Thrown (duplicate_plugin x).
Proof.
  revert seen l1.
  induction ps as [|p ps IH]; intros seen l1 Hids Hnd Hfresh Hx.
  - by destruct l1.
  - simpl in *. destruct l1 as [|y l1]; simplify_eq/=.
    + destruct Hx as [Hx|Hx]; [by apply elem_of_nil in Hx|].
      by rewrite decide_True.
    + apply NoDup_cons in Hnd as [Hy Hnd].
      rewrite decide_False by (apply Hfresh; left).
      apply (IH _ l1); [done..| |].
      * intros z Hz. assert (z ≠ getId p) by (intros ->; done).
        specialize (Hfresh z). set_solver.
      * set_solver.
Qed.

(** A list with a repeated element has a first repetition: a position whose
    element already occurs in the duplicate-free part before it. *)
Lemma first_repetition (l : list string) :
  ~ NoDup l ->
  exists l1 x l2, l = l1 ++ x :: l2 /\ NoDup l1 /\ x ∈ l1.
Proof.
  induction l as [|a l IH] using rev_ind; intros Hdup.
  - destruct Hdup. constructor.
  - destruct (decide (NoDup l)) as [Hnd|Hnd].
    + exists l, a, []. split_and!; [done..|].
      destruct (decide (a ∈ l)) as [|Hnotin]; [done|].
      destruct Hdup. apply NoDup_app. split_and!; [done| |apply NoDup_singleton].
      intros x Hx ->%list_elem_of_singleton. done.
    + destruct (IH Hnd) as (l1 & x & l2 & -> & ? & ?).
      exists l1, x, (l2 ++ [a]). by rewrite <- app_assoc.
Qed.

Lemma verify_run this :
  (NoDup (plugin_ids (plugins this)) -> verify this = (Returned tt, this)) /\
  (forall l1 x l2,
     plugin_ids (plugins this) = l1 ++ x :: l2 -> NoDup l1 -> x ∈ l1 ->
     verify this = (Thrown (duplicate_plugin x), this)).
Proof.
  unfold verify, bind, read. split.
  - intros Hnd. rewrite (surjective_pairing (verify_loop _ _ _)).
    rewrite verify_loop_state, verify_loop_unique; set_solver.
  - intros l1 x l2 Hids Hnd Hx.
    rewrite (surjective_pairing (verify_loop _ _ _)).
    rewrite verify_loop_state, (verify_loop_duplicate _ _ _ l1 x l2);
      [done..| |by left]. set_solver.
Qed.

Lemma createApp_returned options app :
  createApp options = Returned app ->
  themes app = resolve_themes options /\
  plugins app = default [] (opt_get opt_plugins options).
Proof.
  unfold createApp. intros Hrun.
  destruct (verify _) as [[[]|e] app'] eqn:Hv; simplify_eq.
  assert (Hst := f_equal snd Hv). unfold verify, bind, read in Hst.
  simpl in Hst. rewrite verify_loop_state in Hst. by subst app.
Qed.

(** ** Themes *)

(** C1, as amended: [createApp] with [themes: {light: T1}] alone returns an
    application with the single theme [{id: 'light', title: 'Light Theme',
    variant: 'light', theme: T1}]; with no [themes], or a pair holding
    neither [light] nor [dark], the single default light theme; with a
    non-empty explicit list, that list unchanged; with the empty explicit
    list, the single default light theme. *)
Theorem createApp_themes options app :
  createApp options = Returned app ->
  (forall T1,
     opt_get opt_themes options = Some (ThemePair (Some T1) None) ->
     themes app = [{| id := "light"; title := "Light Theme";
                      variant := "light"; theme := T1 |}]) /\
  (opt_get opt_themes options = None \/
   opt_get opt_themes options = Some (ThemePair None None) ->
     themes app = [{| id := "light"; title := "Default Theme";
                      variant := "light"; theme := lightTheme |}]) /\
  (forall l,
     opt_get opt_themes options = Some (ThemeList l) -> l <> [] ->
     themes app = l) /\
  (opt_get opt_themes options = Some (ThemeList []) ->
     themes app = [{| id := "light"; title := "Default Theme";
                      variant := "light"; theme := lightTheme |}]).
Proof.
  intros [-> _]%createApp_returned. unfold resolve_themes.
  split_and!.
  - by intros T1 ->.
  - by intros [-> | ->].
  - intros l -> Hl. simpl. by destruct l.
  - by intros ->.
Qed.

(** C10: with [themes: {light: L, dark: D}], both present, [createApp]
    returns exactly two themes: the light entry (id 'light', title 'Light
    Theme', variant 'light') first and the dark entry (id 'dark', title
    'Dark Theme', variant 'dark') second. *)
Theorem createApp_light_then_dark options app L D :
  createApp options = Returned app ->
  opt_get opt_themes options = Some (ThemePair (Some L) (Some D)) ->
  themes app = [{| id := "light"; title := "Light Theme";
                   variant := "light"; theme := L |};
                {| id := "dark"; title := "Dark Theme";
                   variant := "dark"; theme := D |}].
Proof.
  intros [-> _]%createApp_returned Hpair.
  unfold resolve_themes. by rewrite Hpair.
Qed.

(** ** Duplicate plugin ids *)

(** C2: when the plugin ids are pairwise distinct, [verify] returns and
    [createApp] returns the application; when an id is repeated, both throw
    the error whose message is [Duplicate plugin found 'x'], where [x] is
    the first id of the list that already occurs before it, and [createApp]
    returns no application. *)
Theorem verify_rejects_duplicates (ps : list BackstagePlugin) :
  (NoDup (plugin_ids ps) ->
     (forall this, plugins this = ps -> (verify this).1 = Returned tt) /\
     (forall options, default [] (opt_get opt_plugins options) = ps ->
        exists app, createApp options = Returned app /\ plugins app = ps)) /\
  (~ NoDup (plugin_ids ps) ->
     exists l1 x l2,
       plugin_ids ps = l1 ++ x :: l2 /\ NoDup l1 /\ x ∈ l1 /\
       (forall this, plugins this = ps ->
          (verify this).1 =
            Thrown (MkError ("Duplicate plugin found '" +:+ x +:+ "'"))) /\
       (forall options, default [] (opt_get opt_plugins options) = ps ->
          createApp options =
            Thrown (MkError ("Duplicate plugin found '" +:+ x +:+ "'")))).
Proof.
  split.
  - intros Hnd. split.
    + intros this <-. by rewrite (proj1 (verify_run this) Hnd).
    + intros options Hps. unfold createApp.
      match goal with |- context [verify ?a] =>
        rewrite (proj1 (verify_run a)) by (simpl; by rewrite Hps) end.
      eexists. split; [done|]. simpl. done.
  - intros (l1 & x & l2 & Hids & Hnd & Hx)%first_repetition.
    exists l1, x, l2. split_and!; [done..| |].
    + intros this <-. by rewrite (proj2 (verify_run this) l1 x l2).
    + intros options Hps. unfold createApp.
      match goal with |- context [verify ?a] =>
        rewrite (proj2 (verify_run a) l1 x l2) by (simpl; by rewrite ?Hps) end.
      done.
Qed.

(** C9: [verify] leaves the application as it found it, whether it returns
    or throws: [apis], [icons], [plugins], [components] and [themes] are the
    same after the call as before. *)
Theorem verify_mutates_nothing this :
  let after := (verify this).2 in
  apis after = apis this /\ icons after = icons this /\
  plugins after = plugins this /\ components after = components this /\
  themes after = themes this.
Proof.
  unfold verify, bind, read. simpl.
  rewrite (surjective_pairing (verify_loop _ _ _)), verify_loop_state.
  by destruct (verify_loop _ _ _).1.
Qed.

(** ** The route table *)

(** C3: [getRootComponent] returns, and the children of its [Switch] are the
    entries of the plugins in installation order, those of one plugin in
    the order its outputs declare them, followed by exactly two more: the
    [/login] route and then the catch-all route of the not-found page. *)
Theorem route_table_order this :
  exists rendered,
    (getRootComponent this).1 = Returned rendered /\
    route_list rendered =
      flat_map (fun plugin => omap (spec_entry plugin) (output plugin))
               (plugins this)
      ++ [Route (Some "login") (Some "/login") LoginPage (Some true);
          Route None None (NotFoundErrorPage (components this)) None].
Proof. apply getRootComponent_routes. Qed.

(** C6: a route, nav-target or redirect output of an installed plugin puts
    one entry in the route table, and the [exact] flag of that entry is
    [true] when the output has no [options] or its [options] have no
    [exact], and the supplied boolean otherwise. *)
Theorem exact_defaults_to_true this plugin o options :
  plugin ∈ plugins this ->
  o ∈ output plugin ->
  routing_options o = Some options ->
  exists rendered entry,
    (getRootComponent this).1 = Returned rendered /\
    entry ∈ route_list rendered /\
    (forall c, routes (process_output plugin o c) = routes c ++ [entry]) /\
    (options = None -> element_exact entry = Some true) /\
    (forall ro, options = Some ro -> exact ro = None ->
                element_exact entry = Some true) /\
    (forall ro b, options = Some ro -> exact ro = Some b ->
                  element_exact entry = Some b).
Proof.
  intros Hp Ho Hopts.
  destruct (getRootComponent_routes this) as (rendered & Hrun & Hlist).
  assert (exists entry,
            spec_entry plugin o = Some entry /\
            (forall c, routes (process_output plugin o c) = routes c ++ [entry]) /\
            element_exact entry = Some (exact_of options))
    as (entry & Hentry & Hpush & Hexact).
  { destruct o; simplify_eq/=; eexists; by split_and!. }
  exists rendered, entry. split_and!; [done| |done|..].
  - rewrite Hlist. apply elem_of_app. left.
    apply list_elem_of_In, in_flat_map. exists plugin.
    split; [by apply list_elem_of_In|].
    apply list_elem_of_In, list_elem_of_omap. by exists o.
  - intros ->. by rewrite Hexact.
  - intros ro -> Hro. rewrite Hexact. simpl. by rewrite Hro.
  - intros ro b -> Hro. rewrite Hexact. simpl. by rewrite Hro.
Qed.

(** C8: an output whose tag is none of route, nav-target-component,
    redirect-route and feature-flag changes nothing: the switch leaves both
    arrays as they are, and a build with that output among the outputs of a
    plugin returns, without throwing, the same root component and leaves
    the same registry as the build without it. *)
Theorem unrecognized_output_ignored o :
  output_type o ∉ recognized_types ->
  (forall plugin c, process_output plugin o c = c) /\
  (forall this ps1 ps2 pid os1 os2,
     let with_o :=
       ps1 ++ {| getId := pid; output := os1 ++ o :: os2 |} :: ps2 in
     let without_o :=
       ps1 ++ {| getId := pid; output := os1 ++ os2 |} :: ps2 in
     let built := getRootComponent (set_plugins with_o this) in
     let built' := getRootComponent (set_plugins without_o this) in
     (exists rendered, built.1 = Returned rendered) /\
     built.1 = built'.1 /\ apis built.2 = apis built'.2).
Proof.
  intros Hty.
  assert (process_output_id : forall plugin c, process_output plugin o c = c).
  { intros plugin c. destruct o; simpl in *; try done;
      exfalso; apply Hty; unfold recognized_types; set_solver. }
  assert (Hentry : forall plugin, spec_entry plugin o = None).
  { intros plugin. destruct o; simpl in *; try done;
      exfalso; apply Hty; unfold recognized_types; set_solver. }
  assert (Hflag : forall plugin, spec_flag plugin o = None).
  { intros plugin. destruct o; simpl in *; try done;
      exfalso; apply Hty; unfold recognized_types; set_solver. }
  split; [done|]. intros this ps1 ps2 pid os1 os2. simpl.
  rewrite !getRootComponent_run. simpl.
  assert (spec_entries (ps1 ++ {| getId := pid; output := os1 ++ o :: os2 |} :: ps2)
          = spec_entries (ps1 ++ {| getId := pid; output := os1 ++ os2 |} :: ps2))
    as ->.
  { unfold spec_entries. rewrite !flat_map_app. simpl.
    rewrite !omap_app. simpl. by rewrite Hentry. }
  assert (spec_flags (ps1 ++ {| getId := pid; output := os1 ++ o :: os2 |} :: ps2)
          = spec_flags (ps1 ++ {| getId := pid; output := os1 ++ os2 |} :: ps2))
    as ->.
  { unfold spec_flags. rewrite !flat_map_app. simpl.
    rewrite !omap_app. simpl. by rewrite Hflag. }
  unfold not_found_route. simpl.
  destruct (apis this) as [holder|]; [|by eauto].
  destruct (holder !! featureFlagsApiRef); simpl; by eauto.
Qed.

(** ** The feature-flag registry *)

(** C4: after a build, a feature-flag implementation registered in the
    capability registry holds exactly the flags collected from the
    feature-flag outputs of this build's plugins, in plugin-then-output
    order, whatever list it held before; the rest of the implementation,
    the other capabilities and the other fields of the application are
    untouched. With no registry, or none registered under the feature-flag
    reference, the build writes nothing. *)
Theorem feature_flags_replaced this :
  let after := (getRootComponent this).2 in
  (forall holder FeatureFlags,
     apis this = Some holder ->
     holder !! featureFlagsApiRef = Some FeatureFlags ->
     exists holder' FeatureFlags',
       apis after = Some holder' /\
       holder' !! featureFlagsApiRef = Some FeatureFlags' /\
       registeredFeatureFlags FeatureFlags' =
         flat_map (fun plugin => omap (spec_flag plugin) (output plugin))
                  (plugins this) /\
       apiRest FeatureFlags' = apiRest FeatureFlags /\
       (forall ref, ref <> featureFlagsApiRef -> holder' !! ref = holder !! ref) /\
       after = set_apis (Some holder') this) /\
  (apis this = None \/
   (exists holder, apis this = Some holder /\
                   holder !! featureFlagsApiRef = None) ->
   after = this).
Proof.
  simpl. rewrite getRootComponent_run. simpl. split.
  - intros holder ff -> ->. simpl.
    eexists _, _. split_and!; [done|apply lookup_insert_eq|done..| |done].
    intros ref Href. by rewrite lookup_insert_ne.
  - intros [-> | (holder & -> & ->)]; done.
Qed.

(** ** The getters of [AppImpl] *)

Definition getApis : Method (option ApiHolder) := read apis.

Definition getPlugins : Method (list BackstagePlugin) := read plugins.


(** ** More on [verify] and [createApp] *)

Lemma verify_returns_iff this :
  (verify this).1 = Returned tt <-> NoDup (plugin_ids (plugins this)).
Proof.
  split.
  - intros Hret. destruct (decide (NoDup (plugin_ids (plugins this))))
      as [|Hdup]; [done|].
    destruct (first_repetition _ Hdup) as (l1 & x & l2 & Hids & Hnd & Hx).
    by rewrite (proj2 (verify_run this) l1 x l2 Hids Hnd Hx) in Hret.
  - intros Hnd. by rewrite (proj1 (verify_run this) Hnd).
Qed.

(** The application [createApp] returns, field by field. *)
Lemma createApp_returned_app options app :
  createApp options = Returned app ->
  app =
    {| apis := Some (default (∅ : ApiHolder) (opt_get opt_apis options));
       icons := default ∅ (opt_get opt_icons options) ∪ defaultSystemIcons;
       plugins := default [] (opt_get opt_plugins options);
       components :=
         {| NotFoundErrorPage :=
              default (ErrorPage "404" "PAGE NOT FOUND")
                      (match opt_get opt_components options with
                       | Some cs => NotFoundErrorPage_opt cs
                       | None => None
                       end) |};
       themes := resolve_themes options |} /\
  NoDup (plugin_ids (plugins app)).
Proof.
  unfold createApp. intros Hrun.
  destruct (verify _) as [[[]|e] app'] eqn:Hv; simplify_eq.
  assert (Hst := f_equal snd Hv). assert (Hret := f_equal fst Hv).
  unfold verify, bind, read in Hst. simpl in Hst.
  rewrite verify_loop_state in Hst. subst app. split; [done|].
  by apply verify_returns_iff.
Qed.


(** X2: the root component of an application [createApp] returns is always
    wrapped in the [ApiProvider], and the component of its catch-all route is
    the [NotFoundErrorPage] supplied in [options.components] when there is
    one, and the built-in 404 page [ErrorPage "404" "PAGE NOT FOUND"]
    otherwise. *)
Theorem createApp_not_found_page options app :
  createApp options = Returned app ->
  exists holder front page,
    (getRootComponent app).1 =
      Returned (ApiProvider holder
                  (Switch (front ++ [login_route;
                                     Route None None page None]))) /\
    (forall cs supplied,
       opt_get opt_components options = Some cs ->
       NotFoundErrorPage_opt cs = Some supplied -> page = supplied) /\
    (opt_get opt_components options = None \/
     (exists cs, opt_get opt_components options = Some cs /\
                 NotFoundErrorPage_opt cs = None) ->
     page = ErrorPage "404" "PAGE NOT FOUND").
Proof.
  intros [Happ _]%createApp_returned_app.
  assert (apis app = Some (default ∅ (opt_get opt_apis options))) as Hapis
    by by rewrite Happ.
  assert (NotFoundErrorPage (components app) =
          default (ErrorPage "404" "PAGE NOT FOUND")
                  (match opt_get opt_components options with
                   | Some cs => NotFoundErrorPage_opt cs
                   | None => None
                   end)) as Hpage by by rewrite Happ.
  rewrite getRootComponent_run. unfold not_found_route. simpl.
  rewrite Hapis, Hpage.
  destruct (default ∅ (opt_get opt_apis options) !! featureFlagsApiRef);
    simpl; (eexists _, _, _; split; [reflexivity|]); split.
  - by intros cs supplied -> ->.
  - by intros [-> | (cs & -> & ->)].
  - by intros cs supplied -> ->.
  - by intros [-> | (cs & -> & ->)].
Qed.

(** X3: every application [createApp] returns has at least one theme,
    whatever [options.themes] is. *)
Theorem createApp_has_a_theme options app :
  createApp options = Returned app -> themes app <> [].
Proof.
  intros [-> _]%createApp_returned. unfold resolve_themes.
  case_decide as Hlen; [|by intros Heq; rewrite Heq in Hlen].
  by intros ?%app_nil%proj2.
Qed.

(** X4: when [options.themes] is not an explicit list, the application has
    one or two themes, their ids are pairwise distinct and are ['light'] or
    ['dark']; with [{dark: D}] alone the only theme is the dark entry, and no
    default light theme is added. *)
Theorem createApp_pair_themes options app :
  createApp options = Returned app ->
  (forall l, opt_get opt_themes options <> Some (ThemeList l)) ->
  (length (themes app) = 1 \/ length (themes app) = 2) /\
  NoDup (id <$> themes app) /\
  (forall t, t ∈ themes app -> id t = "light" \/ id t = "dark") /\
  (forall D, opt_get opt_themes options = Some (ThemePair None (Some D)) ->
     themes app = [{| id := "dark"; title := "Dark Theme";
                      variant := "dark"; theme := D |}]).
Proof.
  intros [-> _]%createApp_returned Hnolist. unfold resolve_themes.
  destruct (opt_get opt_themes options) as [[l|[L|] [D|]]|] eqn:Hthemes;
    [by destruct (Hnolist l)|..]; simpl.
  - split_and!; [by right| | |done].
    + apply NoDup_cons. split; [|apply NoDup_singleton].
      by intros ?%list_elem_of_singleton.
    + intros t [->|[->|[]%elem_of_nil]%elem_of_cons]%elem_of_cons; eauto.
  - split_and!; [by left|apply NoDup_singleton| |done].
    intros t ->%list_elem_of_singleton; eauto.
  - split_and!; [by left|apply NoDup_singleton| |by intros ? [= ->]].
    intros t ->%list_elem_of_singleton; eauto.
  - split_and!; [by left|apply NoDup_singleton| |done].
    intros t ->%list_elem_of_singleton; eauto.
  - split_and!; [by left|apply NoDup_singleton| |done].
    intros t ->%list_elem_of_singleton; eauto.
Qed.

(** X5: the plugin ids of an application [createApp] returns are pairwise
    distinct, [getPlugins] gives the supplied list (the empty list when none
    was supplied), and verifying the application again returns. *)
Theorem createApp_plugins_verified options app :
  createApp options = Returned app ->
  NoDup (plugin_ids (plugins app)) /\
  (getPlugins app).1 = Returned (default [] (opt_get opt_plugins options)) /\
  verify app = (Returned tt, app).
Proof.
  intros Hrun. destruct (createApp_returned_app _ _ Hrun) as [Happ Hnd].
  split; [done|]. split.
  - unfold getPlugins, read. simpl. by rewrite Happ.
  - by apply verify_run.
Qed.

(** X6: whether [verify] accepts a plugin list does not depend on the order
    of the plugins. *)
Theorem verify_order_irrelevant this ps ps' :
  ps ≡ₚ ps' ->
  (verify (set_plugins ps this)).1 = Returned tt <->
  (verify (set_plugins ps' this)).1 = Returned tt.
Proof.
  intros Hperm. rewrite !verify_returns_iff. simpl.
  unfold plugin_ids. by rewrite Hperm.
Qed.

(** ** More on [getRootComponent] *)

(** X7: building the root component a second time returns the same
    component as the first build and changes nothing more: the registry,
    overwritten by the first build, is left as it is. *)
Theorem getRootComponent_again this :
  getRootComponent (getRootComponent this).2 =
  ((getRootComponent this).1, (getRootComponent this).2).
Proof.
  rewrite (getRootComponent_run this). simpl.
  destruct (apis this) as [holder|] eqn:Hapis.
  - destruct (holder !! featureFlagsApiRef) as [ff|] eqn:Hff; simpl.
    + rewrite getRootComponent_run. unfold not_found_route. simpl.
      rewrite lookup_insert_eq. simpl. by rewrite !insert_insert_eq.
    + rewrite getRootComponent_run. simpl. by rewrite Hapis, Hff.
  - rewrite getRootComponent_run. simpl. by rewrite Hapis.
Qed.

(** X8: the route table holds nothing of its own making: each entry is the
    [/login] route, the catch-all route, or the entry the switch pushes for a
    route, nav-target or redirect output of an installed plugin. *)
Theorem route_table_sound this rendered entry :
  (getRootComponent this).1 = Returned rendered ->
  entry ∈ route_list rendered ->
  entry = login_route \/
  entry = Route None None (NotFoundErrorPage (components this)) None \/
  exists plugin o,
    plugin ∈ plugins this /\ o ∈ output plugin /\
    is_Some (routing_options o) /\
    forall c, routes (process_output plugin o c) = routes c ++ [entry].
Proof.
  intros Hrun Hin.
  destruct (getRootComponent_routes this) as (rendered' & Hrun' & Hlist).
  rewrite Hrun in Hrun'. simplify_eq. rewrite Hlist in Hin.
  apply elem_of_app in Hin as [Hin|Hin].
  - right. right. unfold spec_entries in Hin.
    apply list_elem_of_In, in_flat_map in Hin as (plugin & Hp & Ho).
    apply list_elem_of_In, list_elem_of_omap in Ho as (o & Ho & Hentry).
    exists plugin, o. split; [by apply list_elem_of_In|]. split; [done|].
    destruct o; simplify_eq/=; by eauto.
  - apply elem_of_cons in Hin as [->|Hin]; [by left|].
    apply list_elem_of_singleton in Hin as ->. by right; left.
Qed.

(** X9: the root component is wrapped in an [ApiProvider] exactly when the
    application has a registry, and the provider is given the registry as
    the build leaves it, with the flags of this build already in it. *)
Theorem root_wrapped_in_provider this :
  let built := getRootComponent this in
  (apis this = None ->
   exists children, built.1 = Returned (Switch children)) /\
  (forall holder, apis this = Some holder ->
   exists holder' children,
     built.1 = Returned (ApiProvider holder' (Switch children)) /\
     apis built.2 = Some holder').
Proof.
  simpl. rewrite getRootComponent_run. simpl. split.
  - intros ->. by eexists.
  - intros holder Hapis. rewrite Hapis.
    destruct (holder !! featureFlagsApiRef); simpl;
      eexists _, _; (split; [reflexivity|]); done.
Qed.

(** X10: after a build, the flags held by a registered feature-flag
    implementation are the declared ones and no others: a flag
    [{pluginId, name}] is registered exactly when an installed plugin with
    that id has a feature-flag output of that name. *)
Theorem registered_flags_declared this holder FeatureFlags flag :
  apis this = Some holder ->
  holder !! featureFlagsApiRef = Some FeatureFlags ->
  (exists holder' FeatureFlags',
     apis (getRootComponent this).2 = Some holder' /\
     holder' !! featureFlagsApiRef = Some FeatureFlags' /\
     flag ∈ registeredFeatureFlags FeatureFlags') <->
  (exists plugin,
     plugin ∈ plugins this /\ getId plugin = pluginId flag /\
     FeatureFlagOutput (name flag) ∈ output plugin).
Proof.
  intros Hapis Hff. rewrite getRootComponent_run. simpl.
  rewrite Hapis, Hff. simpl.
  assert (flag ∈ spec_flags (plugins this) <->
          exists plugin,
            plugin ∈ plugins this /\ getId plugin = pluginId flag /\
            FeatureFlagOutput (name flag) ∈ output plugin) as <-.
  { unfold spec_flags. rewrite list_elem_of_In, in_flat_map. split.
    - intros (plugin & Hp & Ho). exists plugin.
      apply list_elem_of_In, list_elem_of_omap in Ho as (o & Ho & Hflag).
      split; [by apply list_elem_of_In|].
      destruct o; simplify_eq/=. by split.
    - intros (plugin & Hp & Hid & Ho). exists plugin.
      split; [by apply list_elem_of_In|].
      apply list_elem_of_In, list_elem_of_omap. eexists. split; [done|].
      simpl. rewrite Hid. by destruct flag. }
  split.
  - intros (holder' & ff' & [= <-] & Hlookup & Hin).
    rewrite lookup_insert_eq in Hlookup. by simplify_eq/=.
  - intros Hin. eexists _, _. split; [done|].
    split; [apply lookup_insert_eq|done].
Qed.

(** X11: the route table has one entry for each route, nav-target and
    redirect output of the installed plugins, counted with repetitions (two
    outputs with the same path give two entries), and two more; feature-flag
    outputs and outputs of an unknown kind add none. *)
Theorem route_table_size this :
  exists rendered,
    (getRootComponent this).1 = Returned rendered /\
    length (route_list rendered) =
      length (filter (fun o => is_Some (routing_options o))
                     (flat_map output (plugins this))) + 2.
Proof.
  destruct (getRootComponent_routes this) as (rendered & Hrun & Hlist).
  exists rendered. split; [done|]. rewrite Hlist, length_app. simpl.
  f_equal. unfold spec_entries. clear Hrun Hlist.
  induction (plugins this) as [|plugin ps IH]; [done|]. simpl.
  rewrite filter_app, !length_app, IH. f_equal.
  induction (output plugin) as [|o os IHo]; [done|].
  destruct o.
  - rewrite filter_cons_True by by eexists. simpl. f_equal. exact IHo.
  - rewrite filter_cons_True by by eexists. simpl. f_equal. exact IHo.
  - rewrite filter_cons_True by by eexists. simpl. f_equal. exact IHo.
  - rewrite filter_cons_False by by intros []. exact IHo.
  - rewrite filter_cons_False by by intros []. exact IHo.
Qed.

End app.

(** ** A sample application *)

Definition catalog : @BackstagePlugin string :=
  {| getId := "catalog";
     output := [RouteOutput "/catalog" "CatalogPage" None;
                FeatureFlagOutput "catalog-beta";
                OtherOutput "legacy-widget";
                RedirectRouteOutput "/" "/catalog"
                                    (Some {| exact := Some false |})] |}.

Definition techdocs : @BackstagePlugin string :=
  {| getId := "techdocs";
     output := [NavTargetOutput {| path := "/docs" |} "DocsPage"
                                (Some {| exact := None |});
                FeatureFlagOutput "docs-search"] |}.

Definition sample_options (ps : list (@BackstagePlugin string))
    (ts : option (@ThemesOption string))
  : option (@AppOptions string string string unit) :=
  Some {| opt_apis := None; opt_icons := None; opt_plugins := Some ps;
          opt_components := None; opt_themes := ts |}.

Definition sample_ErrorPage (status statusMessage : string) : string :=
  "ErrorPage " +:+ status +:+ " " +:+ statusMessage.

Definition sample_createApp :=
  @createApp string string string unit sample_ErrorPage "lightTheme" ∅.

Definition stale_flags : @ApiImpl unit :=
  {| registeredFeatureFlags := [{| pluginId := "old"; name := "stale" |}];
     apiRest := tt |}.

Definition sample_app (ps : list (@BackstagePlugin string))
  : @AppImpl string string string unit :=
  {| apis := Some {["featureFlags" := stale_flags]};
     icons := ∅; plugins := ps;
     components := {| NotFoundErrorPage := "NotFound" |};
     themes := [] |}.

Definition sample_build :=
  @getRootComponent string string string unit "featureFlags" "LoginPage".


Example sample_verify_throws :
  (@verify string string string unit
     (sample_app [catalog; techdocs; techdocs; catalog])).1 =
  Thrown (MkError "Duplicate plugin found 'techdocs'").
Proof. vm_compute. reflexivity. Qed.

Example sample_route_table :
  match (sample_build (sample_app [catalog; techdocs])).1 with
  | Returned rendered => route_list rendered
  | Thrown _ => []
  end =
  [Route (Some "/catalog") (Some "/catalog") "CatalogPage" (Some true);
   Redirect (Some "/") "/" "/catalog" (Some false);
   Route (Some "techdocs-/docs") (Some "/docs") "DocsPage" (Some true);
   Route (Some "login") (Some "/login") "LoginPage" (Some true);
   Route None None "NotFound" None].
Proof. vm_compute. reflexivity. Qed.

(** C1, as first stated, fails on the empty explicit list: the application
    does not get that list but the default light theme. *)
Lemma empty_theme_list_replaced :
  exists app,
    sample_createApp (sample_options [catalog] (Some (ThemeList []))) =
      Returned app /\
    themes app = [{| id := "light"; title := "Default Theme";
                     variant := "light"; theme := "lightTheme" |}] /\
    themes app <> [].
Proof. eexists. split; [vm_compute; reflexivity|]. by split. Qed.

Lemma createApp_themes_witness :
  exists app,
    sample_createApp
      (sample_options [catalog; techdocs] (Some (ThemePair (Some "T1") None)))
      = Returned app /\
    themes app = [{| id := "light"; title := "Light Theme";
                     variant := "light"; theme := "T1" |}].
Proof.
  eexists. split; [vm_compute; reflexivity|].
  refine (proj1 (createApp_themes
                   sample_ErrorPage "lightTheme" ∅
                   (sample_options [catalog; techdocs]
                                   (Some (ThemePair (Some "T1") None))) _ _)
                 "T1" _);
    [vm_compute; reflexivity | reflexivity].
Defined.

Lemma createApp_light_then_dark_witness :
  exists app,
    sample_createApp
      (sample_options [catalog] (Some (ThemePair (Some "L") (Some "D"))))
      = Returned app /\
    themes app = [{| id := "light"; title := "Light Theme";
                     variant := "light"; theme := "L" |};
                  {| id := "dark"; title := "Dark Theme";
                     variant := "dark"; theme := "D" |}].
Proof.
  eexists. split; [vm_compute; reflexivity|].
  refine (createApp_light_then_dark
            sample_ErrorPage "lightTheme" ∅
            (sample_options [catalog] (Some (ThemePair (Some "L") (Some "D"))))
            _ "L" "D" _ _);
    [vm_compute; reflexivity | reflexivity].
Defined.

Lemma verify_rejects_duplicates_witness :
  ~ NoDup (plugin_ids [catalog; techdocs; techdocs; catalog]) /\
  exists l1 x l2,
    plugin_ids [catalog; techdocs; techdocs; catalog] = l1 ++ x :: l2 /\
    NoDup l1 /\ x ∈ l1 /\
    (forall this, plugins this = [catalog; techdocs; techdocs; catalog] ->
       (@verify string string string unit this).1 =
         Thrown (MkError ("Duplicate plugin found '" +:+ x +:+ "'"))) /\
    (forall options,
       default [] (opt_get opt_plugins options) =
         [catalog; techdocs; techdocs; catalog] ->
       sample_createApp options =
         Thrown (MkError ("Duplicate plugin found '" +:+ x +:+ "'"))).
Proof.
  assert (~ NoDup (plugin_ids [catalog; techdocs; techdocs; catalog])) as Hdup.
  { apply (bool_decide_unpack _). vm_compute. exact I. }
  split; [exact Hdup|].
  exact (proj2 (verify_rejects_duplicates sample_ErrorPage "lightTheme" ∅ _)
               Hdup).
Defined.

Lemma exact_defaults_to_true_witness :
  catalog ∈ plugins (sample_app [catalog; techdocs]) /\
  RedirectRouteOutput "/" "/catalog" (Some {| exact := Some false |})
    ∈ output catalog /\
  exists rendered entry,
    (sample_build (sample_app [catalog; techdocs])).1 = Returned rendered /\
    entry ∈ route_list rendered /\
    element_exact entry = Some false.
Proof.
  assert (catalog ∈ plugins (sample_app [catalog; techdocs])) as Hp
    by (simpl; apply list_elem_of_here).
  assert (RedirectRouteOutput "/" "/catalog" (Some {| exact := Some false |})
            ∈ output catalog) as Ho
    by (simpl; do 3 apply list_elem_of_further; apply list_elem_of_here).
  split; [exact Hp|]. split; [exact Ho|].
  destruct (exact_defaults_to_true
              "featureFlags" "LoginPage" (sample_app [catalog; techdocs])
              catalog _ (Some {| exact := Some false |}) Hp Ho eq_refl)
    as (rendered & entry & Hrun & Hin & _ & _ & _ & Hexact).
  exists rendered, entry.
  split; [exact Hrun|]. split; [exact Hin|].
  exact (Hexact _ false eq_refl eq_refl).
Defined.

Lemma unrecognized_output_ignored_witness :
  (output_type (@OtherOutput string "legacy-widget") ∉ recognized_types) /\
  ((sample_build (sample_app [catalog; techdocs])).1 =
   (sample_build
     (sample_app
        [{| getId := "catalog";
            output := [RouteOutput "/catalog" "CatalogPage" None;
                       FeatureFlagOutput "catalog-beta";
                       RedirectRouteOutput "/" "/catalog"
                         (Some {| exact := Some false |})] |};
         techdocs])).1).
Proof.
  assert (output_type (@OtherOutput string "legacy-widget")
            ∉ recognized_types) as Hty.
  { apply (bool_decide_unpack _). vm_compute. exact I. }
  split; [exact Hty|].
  exact (proj1 (proj2
    (proj2 (unrecognized_output_ignored
              "featureFlags" "LoginPage" sample_ErrorPage _ Hty)
       (sample_app []) [] [techdocs] "catalog"
       [RouteOutput "/catalog" "CatalogPage" None;
        FeatureFlagOutput "catalog-beta"]
       [RedirectRouteOutput "/" "/catalog"
          (Some {| exact := Some false |})]))).
Defined.

Lemma feature_flags_replaced_witness :
  exists holder' FeatureFlags',
    apis (sample_build (sample_app [catalog; techdocs])).2 = Some holder' /\
    holder' !! "featureFlags" = Some FeatureFlags' /\
    registeredFeatureFlags FeatureFlags' =
      [{| pluginId := "catalog"; name := "catalog-beta" |};
       {| pluginId := "techdocs"; name := "docs-search" |}].
Proof.
  destruct (proj1 (feature_flags_replaced
                     "featureFlags" "LoginPage"
                     (sample_app [catalog; techdocs]))
              {["featureFlags" := stale_flags]} stale_flags eq_refl
              (lookup_singleton_eq _ _))
    as (holder' & ff' & Hapis & Hlookup & Hflags & _).
  exists holder', ff'. split; [exact Hapis|]. split; [exact Hlookup|].
  exact Hflags.
Defined.

(** ** A branded application *)

Definition sample_icons : gmap string string :=
  {["brand" := "BackstageLogo"; "user" := "UserIcon"]}.

Definition branded_options
  : option (@AppOptions string string string unit) :=
  Some {| opt_apis := None;
          opt_icons := Some {["brand" := "MyLogo"]};
          opt_plugins := Some [catalog; techdocs];
          opt_components := Some {| NotFoundErrorPage_opt := Some "My404" |};
          opt_themes := Some (ThemePair None (Some "D")) |}.

Definition branded_createApp :=
  @createApp string string string unit sample_ErrorPage "lightTheme"
             sample_icons.


Lemma createApp_not_found_page_witness :
  exists app,
    branded_createApp branded_options = Returned app /\
    exists holder front,
      (@getRootComponent string string string unit "featureFlags" "LoginPage"
                         app).1 =
        Returned (ApiProvider holder
                    (Switch (front ++
                             [Route (Some "login") (Some "/login") "LoginPage"
                                    (Some true);
                              Route None None "My404" None]))).
Proof.
  eexists. split; [vm_compute; reflexivity|].
  match goal with |- context [getRootComponent _ _ ?app] =>
    destruct (createApp_not_found_page
                "featureFlags" "LoginPage" sample_ErrorPage "lightTheme"
                sample_icons branded_options app eq_refl)
      as (holder & front & page & Hrun & Hsupplied & _)
  end.
  exists holder, front. rewrite Hrun.
  by rewrite (Hsupplied {| NotFoundErrorPage_opt := Some "My404" |} "My404"
                        eq_refl eq_refl).
Defined.

Lemma createApp_has_a_theme_witness :
  exists app,
    sample_createApp (sample_options [catalog] (Some (ThemeList []))) =
      Returned app /\
    themes app <> [].
Proof.
  eexists. split; [vm_compute; reflexivity|].
  exact (createApp_has_a_theme
           sample_ErrorPage "lightTheme" ∅
           (sample_options [catalog] (Some (ThemeList []))) _ eq_refl).
Defined.

Lemma createApp_pair_themes_witness :
  exists app,
    branded_createApp branded_options = Returned app /\
    themes app = [{| id := "dark"; title := "Dark Theme";
                     variant := "dark"; theme := "D" |}].
Proof.
  eexists. split; [vm_compute; reflexivity|].
  refine (proj2 (proj2 (proj2
            (createApp_pair_themes
               sample_ErrorPage "lightTheme" sample_icons
               branded_options _ eq_refl _))) "D" eq_refl).
  intros l. discriminate.
Defined.

Lemma createApp_plugins_verified_witness :
  exists app,
    branded_createApp branded_options = Returned app /\
    NoDup (plugin_ids (plugins app)) /\
    (getPlugins app).1 = Returned [catalog; techdocs] /\
    verify app = (Returned tt, app).
Proof.
  eexists. split; [vm_compute; reflexivity|].
  exact (createApp_plugins_verified
           sample_ErrorPage "lightTheme" sample_icons
           branded_options _ eq_refl).
Defined.

Lemma verify_order_irrelevant_witness :
  [catalog; techdocs] ≡ₚ [techdocs; catalog] /\
  ((verify (set_plugins [catalog; techdocs] (sample_app []))).1 = Returned tt
   <->
   (verify (set_plugins [techdocs; catalog] (sample_app []))).1 = Returned tt).
Proof.
  assert ([catalog; techdocs] ≡ₚ [techdocs; catalog]) as Hperm
    by apply perm_swap.
  split; [exact Hperm|].
  exact (verify_order_irrelevant sample_ErrorPage (sample_app []) _ _ Hperm).
Defined.

Lemma route_table_sound_witness :
  exists rendered,
    (sample_build (sample_app [catalog; techdocs])).1 = Returned rendered /\
    Redirect (Some "/") "/" "/catalog" (Some false) ∈ route_list rendered /\
    exists plugin o,
      plugin ∈ [catalog; techdocs] /\ o ∈ output plugin /\
      forall c : @Collected string unit,
        routes (process_output plugin o c) =
        routes c ++ [Redirect (Some "/") "/" "/catalog" (Some false)].
Proof.
  eexists. split; [vm_compute; reflexivity|].
  assert ((Redirect (Some "/") "/" "/catalog" (Some false)
             : @Element string unit) ∈
          [Route (Some "/catalog") (Some "/catalog") "CatalogPage" (Some true);
           Redirect (Some "/") "/" "/catalog" (Some false);
           Route (Some "techdocs-/docs") (Some "/docs") "DocsPage" (Some true);
           Route (Some "login") (Some "/login") "LoginPage" (Some true);
           Route None None "NotFound" None]) as Hin
    by (apply list_elem_of_further, list_elem_of_here).
  split; [exact Hin|].
  destruct (route_table_sound
              "featureFlags" "LoginPage" (sample_app [catalog; techdocs])
              _ _ eq_refl Hin)
    as [Hlogin | [Hnf | (plugin & o & Hp & Ho & _ & Hpush)]];
    [discriminate Hlogin|discriminate Hnf|].
  by exists plugin, o.
Defined.

Lemma registered_flags_declared_witness :
  exists holder' FeatureFlags',
    apis (sample_build (sample_app [catalog; techdocs])).2 = Some holder' /\
    holder' !! "featureFlags" = Some FeatureFlags' /\
    {| pluginId := "techdocs"; name := "docs-search" |}
      ∈ registeredFeatureFlags FeatureFlags'.
Proof.
  apply (registered_flags_declared
           "featureFlags" "LoginPage" (sample_app [catalog; techdocs])
           {["featureFlags" := stale_flags]} stale_flags
           {| pluginId := "techdocs"; name := "docs-search" |}
           eq_refl (lookup_singleton_eq _ _)).
  exists techdocs. split; [apply list_elem_of_further, list_elem_of_here|].
  split; [reflexivity|]. apply list_elem_of_further, list_elem_of_here.
Defined.

End App.

(** * Node's [path] module, POSIX flavour

    [github.ts] builds its paths with [path.join] and [path.resolve] of
    Node's standard library. They are written here after [lib/path.js],
    segment by segment where Node scans characters: a path is cut at every
    [/], the segments are normalized on a stack, and the stack is glued
    back. [prepare] itself is defined for any two such functions. *)
Module Posix.

Definition is_slash (c : ascii) : bool := Ascii.eqb c "/"%char.

(** The segments of a path: one more than the path has slashes. *)
Fixpoint split_slash (p : string) : list string :=
  match p with
  | EmptyString => [EmptyString]
  | String c rest =>
      if is_slash c then EmptyString :: split_slash rest
      else match split_slash rest with
           | seg :: segs => String c seg :: segs
           | [] => [String c EmptyString]
           end
  end.

Definition glue (segs : list string) : string := String.concat "/" segs.

(** One step of [normalizeString] at the end of a segment: empty segments
    and [.] are dropped, [..] removes the segment before it (or is kept
    when there is none to remove and the path may climb above its start),
    any other segment is appended. *)
Definition normalize_step (allowAboveRoot : bool) (res : list string)
    (seg : string) : list string :=
  if decide (seg = "" \/ seg = ".") then res
  else if decide (seg = "..") then
    match last res with
    | Some prev =>
        if decide (prev = "..")
        then (if allowAboveRoot then res ++ [".."] else res)
        else removelast res
    | None => if allowAboveRoot then [".."] else []
    end
  else res ++ [seg].

Definition normalizeString (p : string) (allowAboveRoot : bool) : string :=
  glue (fold_left (normalize_step allowAboveRoot) (split_slash p) []).

Definition isAbsolute (p : string) : bool :=
  match p with
  | String c _ => is_slash c
  | EmptyString => false
  end.

Fixpoint ends_with_slash (p : string) : bool :=
  match p with
  | EmptyString => false
  | String c EmptyString => is_slash c
  | String _ rest => ends_with_slash rest
  end.

Definition normalize (p : string) : string :=
  if decide (p = "") then "."
  else
    let absolute := isAbsolute p in
    let trailingSeparator := ends_with_slash p in
    let p := normalizeString p (negb absolute) in
    if decide (p = "") then
      if absolute then "/" else if trailingSeparator then "./" else "."
    else
      let p := if trailingSeparator then p +:+ "/" else p in
      if absolute then "/" +:+ p else p.

(** [path.join(...args)]. *)
Definition join (args : list string) : string :=
  match filter (fun arg => arg <> "") args with
  | [] => "."
  | parts => normalize (glue parts)
  end.

(** The loop of [path.resolve], from the last argument to the first and
    then the working directory, until an absolute path has been seen. *)
Fixpoint resolve_loop (paths : list string) (resolvedPath : string)
  : string * bool :=
  match paths with
  | [] => (resolvedPath, false)
  | p :: rest =>
      if decide (p = "") then resolve_loop rest resolvedPath
      else
        let resolvedPath := p +:+ "/" +:+ resolvedPath in
        if isAbsolute p then (resolvedPath, true)
        else resolve_loop rest resolvedPath
  end.

(** [path.resolve(...args)] in a process whose working directory is
    [cwd]. *)
Definition resolve (cwd : string) (args : list string) : string :=
  let '(resolvedPath, resolvedAbsolute) :=
    resolve_loop (rev args ++ [cwd]) "" in
  let resolvedPath := normalizeString resolvedPath (negb resolvedAbsolute) in
  if resolvedAbsolute then "/" +:+ resolvedPath
  else if decide (resolvedPath = "") then "." else resolvedPath.

(** ** Paths that are already normal *)

Fixpoint slash_free (s : string) : bool :=
  match s with
  | EmptyString => true
  | String c rest => negb (is_slash c) && slash_free rest
  end.

(** A segment [normalizeString] keeps as it is. *)
Definition plain (seg : string) : Prop :=
  slash_free seg = true /\ seg <> "" /\ seg <> "." /\ seg <> "..".

Lemma split_slash_cons p : exists seg segs, split_slash p = seg :: segs.
Proof.
  induction p as [|c p (seg & segs & IH)]; simpl; [by eauto|].
  destruct (is_slash c); [by eauto|]. rewrite IH. by eauto.
Qed.

Lemma split_slash_free p : Forall (fun seg => slash_free seg = true) (split_slash p).
Proof.
  induction p as [|c p IH]; simpl; [by repeat constructor|].
  destruct (is_slash c) eqn:Hc; [by constructor|].
  destruct (split_slash p) as [|seg segs]; [by repeat constructor; simpl; rewrite Hc|].
  apply Forall_cons in IH as [Hseg Hsegs].
  constructor; [|done]. simpl. by rewrite Hc.
Qed.

Lemma split_slash_app p q :
  split_slash (p +:+ "/" +:+ q) = split_slash p ++ split_slash q.
Proof.
  induction p as [|c p IH]; simpl; [done|].
  destruct (is_slash c); [by rewrite IH|].
  rewrite IH. destruct (split_slash_cons p) as (seg & segs & ->). done.
Qed.

Lemma split_slash_segment seg : slash_free seg = true -> split_slash seg = [seg].
Proof.
  induction seg as [|c seg IH]; simpl; [done|].
  intros [Hc Hseg]%andb_prop. destruct (is_slash c); [done|].
  by rewrite IH.
Qed.

Lemma split_slash_glue segs :
  segs <> [] -> Forall (fun seg => slash_free seg = true) segs ->
  split_slash (glue segs) = segs.
Proof.
  induction segs as [|seg segs IH]; [done|]. intros _ Hfree.
  apply Forall_cons in Hfree as [Hseg Hsegs].
  destruct segs as [|seg' segs]; [by apply split_slash_segment|].
  change (glue (seg :: seg' :: segs)) with (seg +:+ "/" +:+ glue (seg' :: segs)).
  rewrite split_slash_app, split_slash_segment, IH; done.
Qed.

Lemma normalize_plain allowAboveRoot segs res :
  Forall plain segs ->
  fold_left (normalize_step allowAboveRoot) segs res = res ++ segs.
Proof.
  revert res. induction segs as [|seg segs IH]; intros res Hplain; simpl.
  - by rewrite app_nil_r.
  - apply Forall_cons in Hplain as [(_ & ? & ? & ?) Hplain].
    rewrite IH by done. unfold normalize_step.
    rewrite decide_False by tauto. rewrite decide_False by done.
    by rewrite <- app_assoc.
Qed.

Lemma Forall_removelast {A} (P : A -> Prop) (l : list A) :
  Forall P l -> Forall P (removelast l).
Proof.
  induction l as [|x l IH]; [done|]. intros [Hx Hl]%Forall_cons. simpl.
  destruct l; [constructor|]. constructor; [done|]. by apply IH.
Qed.

Lemma normalize_step_plain segs res :
  Forall plain res ->
  Forall (fun seg => slash_free seg = true) segs ->
  Forall plain (fold_left (normalize_step false) segs res).
Proof.
  revert res. induction segs as [|seg segs IH]; intros res Hres Hfree; [done|].
  apply Forall_cons in Hfree as [Hseg Hfree]. simpl. apply IH; [|done].
  unfold normalize_step. case_decide; [done|]. case_decide.
  - destruct (last res); [|constructor].
    case_decide; [done|]. by apply Forall_removelast.
  - apply Forall_app. split; [done|]. repeat constructor; try done; tauto.
Qed.

Lemma glue_nonempty seg segs : seg <> "" -> glue (seg :: segs) <> "".
Proof.
  intros Hseg. destruct segs as [|seg' segs]; [done|].
  change (glue (seg :: seg' :: segs)) with (seg +:+ "/" +:+ glue (seg' :: segs)).
  destruct seg; [done|]. done.
Qed.

Lemma ends_with_slash_app p q :
  q <> "" -> ends_with_slash (p +:+ q) = ends_with_slash q.
Proof.
  intros Hq. induction p as [|c p IH]; [done|].
  simpl. rewrite IH. destruct (p +:+ q) eqn:Hpq; [|done].
  destruct p, q; done.
Qed.

Lemma ends_with_slash_free seg :
  slash_free seg = true -> ends_with_slash seg = false.
Proof.
  induction seg as [|c seg IH]; [done|]. simpl.
  intros [Hc Hseg]%andb_prop. rewrite IH by done.
  destruct seg; [|done]. by destruct (is_slash c).
Qed.

Lemma isAbsolute_app p q : isAbsolute p = true -> isAbsolute (p +:+ q) = true.
Proof. by destruct p. Qed.

Lemma isAbsolute_nonempty p : isAbsolute p = true -> p <> "".
Proof. by destruct p. Qed.

(** Joining a directory name to an absolute path gives ["/"] followed by
    plain segments. *)
Lemma join_absolute p name :
  isAbsolute p = true -> plain name ->
  exists segs, Forall plain segs /\ segs <> [] /\ join [p; name] = "/" +:+ glue segs.
Proof.
  intros Hp Hname. unfold join. 
  assert (p <> "") by by apply isAbsolute_nonempty.
  assert (name <> "") by apply Hname.
  rewrite filter_cons_True by done. rewrite filter_cons_True by done.
  rewrite filter_nil.
  change (glue [p; name]) with (p +:+ "/" +:+ name).
  unfold normalize. rewrite decide_False by by destruct p.
  rewrite isAbsolute_app by done.
  change (p +:+ "/" +:+ name) with (p +:+ ("/" +:+ name)) at 1.
  rewrite ends_with_slash_app by done.
  simpl negb. unfold normalizeString. rewrite split_slash_app, fold_left_app.
  rewrite split_slash_segment by apply Hname. simpl fold_left.
  set (res := fold_left _ (split_slash p) []).
  assert (Forall plain res) as Hres.
  { apply normalize_step_plain; [constructor|apply split_slash_free]. }
  assert (normalize_step false res name = res ++ [name]) as ->.
  { unfold normalize_step. destruct Hname as (_ & ? & ? & ?).
    rewrite decide_False by tauto. by rewrite decide_False. }
  exists (res ++ [name]).
  split; [apply Forall_app; split; [done|by apply Forall_singleton]|].
  split; [by destruct res|].
  assert (glue (res ++ [name]) <> "") as Hne.
  { destruct res as [|seg res]; simpl app.
    - apply Hname.
    - apply Forall_cons in Hres as [Hseg _]. apply glue_nonempty, Hseg. }
  rewrite decide_False by done.
  rewrite (ends_with_slash_app "/" name), ends_with_slash_free by apply Hname.
  done.
Qed.

(** Resolving nothing against a path made of ["/"] and plain segments gives
    the path back. *)
Lemma resolve_normal cwd segs :
  Forall plain segs -> segs <> [] ->
  resolve cwd ["/" +:+ glue segs; ""] = "/" +:+ glue segs.
Proof.
  intros Hplain Hne. unfold resolve. simpl rev. simpl app.
  unfold resolve_loop. rewrite decide_True by done. rewrite decide_False by done.
  simpl isAbsolute. cbv iota beta. simpl negb.
  unfold normalizeString.
  change (("/" +:+ glue segs) +:+ "/" +:+ "") with (String "/" (glue segs +:+ "/" +:+ "")).
  change (split_slash (String "/" (glue segs +:+ "/" +:+ "")))
    with ("" :: split_slash (glue segs +:+ "/" +:+ "")).
  rewrite split_slash_app, split_slash_glue; [|done|].
  - simpl fold_left at 1.
    rewrite fold_left_app, (normalize_plain _ segs) by done. done.
  - eapply Forall_impl; [done|]. by intros seg [? _].
Qed.

(** For an absolute workspace, resolving the empty subpath against the
    checkout directory gives the checkout directory. *)
Lemma resolve_empty_subpath cwd workspacePath name :
  isAbsolute workspacePath = true -> plain name ->
  resolve cwd [join [workspacePath; name]; ""] = join [workspacePath; name].
Proof.
  intros Habs Hname.
  destruct (join_absolute workspacePath name Habs Hname)
    as (segs & Hplain & Hne & ->).
  by apply resolve_normal.
Qed.

(** In a process with an absolute working directory, [path.resolve]
    returns an absolute path. *)
Lemma resolve_loop_absolute cwd paths resolvedPath :
  isAbsolute cwd = true ->
  (resolve_loop (paths ++ [cwd]) resolvedPath).2 = true.
Proof.
  intros Hcwd. revert resolvedPath.
  induction paths as [|p paths IH]; intros resolvedPath; simpl.
  - rewrite decide_False by by apply isAbsolute_nonempty. by rewrite Hcwd.
  - case_decide; [apply IH|]. destruct (isAbsolute p); [done|apply IH].
Qed.

Lemma resolve_absolute cwd args :
  isAbsolute cwd = true -> isAbsolute (resolve cwd args) = true.
Proof.
  intros Hcwd. unfold resolve.
  assert (H := resolve_loop_absolute cwd (rev args) "" Hcwd).
  destruct (resolve_loop _ _) as [resolvedPath resolvedAbsolute].
  simpl in H. by subst resolvedAbsolute.
Qed.

Lemma plain_checkout : plain "checkout".
Proof. by repeat split. Qed.

(** ** Paths below an absolute directory *)

(** Cutting a path at its slashes and gluing the segments gives the path
    back. *)
Lemma glue_split_slash p : glue (split_slash p) = p.
Proof.
  induction p as [|c p IH]; [done|]. simpl.
  destruct (split_slash_cons p) as (seg & segs & Hsplit).
  rewrite Hsplit in *. destruct (is_slash c) eqn:Hc.
  - apply Ascii.eqb_eq in Hc as ->.
    change (glue ("" :: seg :: segs)) with ("/" +:+ glue (seg :: segs)).
    by rewrite IH.
  - destruct segs as [|seg' segs].
    + change (glue [String c seg]) with (String c (glue [seg])).
      by rewrite IH.
    + change (glue (String c seg :: seg' :: segs))
        with (String c (seg +:+ "/" +:+ glue (seg' :: segs))).
      change (glue (seg :: seg' :: segs))
        with (seg +:+ "/" +:+ glue (seg' :: segs)) in IH.
      by rewrite IH.
Qed.

Lemma append_assoc p q r : (p +:+ q) +:+ r = p +:+ q +:+ r.
Proof.
  induction p as [|c p IH]; [done|].
  change (String c ((p +:+ q) +:+ r) = String c (p +:+ q +:+ r)).
  by rewrite IH.
Qed.

Lemma glue_app segs segs' :
  segs <> [] -> segs' <> [] ->
  glue (segs ++ segs') = glue segs +:+ "/" +:+ glue segs'.
Proof.
  intros Hne Hne'. induction segs as [|seg segs IH]; [done|].
  destruct segs as [|seg2 segs].
  - destruct segs' as [|seg' segs']; [done|]. done.
  - change (glue ((seg :: seg2 :: segs) ++ segs'))
      with (seg +:+ "/" +:+ glue ((seg2 :: segs) ++ segs')).
    rewrite IH by done.
    change (glue (seg :: seg2 :: segs))
      with (seg +:+ "/" +:+ glue (seg2 :: segs)).
    by rewrite !append_assoc.
Qed.

Lemma plain_relative seg segs : plain seg -> isAbsolute (glue (seg :: segs)) = false.
Proof.
  intros (Hfree & Hne & _). destruct seg as [|c seg]; [done|].
  simpl in Hfree. apply andb_prop in Hfree as [Hc _].
  destruct segs; simpl; by destruct (is_slash c).
Qed.

Lemma plain_slash_free segs :
  Forall plain segs -> Forall (fun seg => slash_free seg = true) segs.
Proof. intros H. eapply Forall_impl; [exact H|]. by intros seg [? _]. Qed.

(** The normal form of [workspacePath/name] for an absolute workspace: the
    segments the workspace normalizes to, then the name. *)
Lemma join_absolute_segments p name :
  isAbsolute p = true -> plain name ->
  let segs := fold_left (normalize_step false) (split_slash p) [] in
  Forall plain segs /\
  join [p; name] = "/" +:+ glue (segs ++ [name]).
Proof.
  intros Hp Hname segs.
  assert (Forall plain segs) as Hsegs.
  { apply normalize_step_plain; [constructor|apply split_slash_free]. }
  split; [done|]. unfold join.
  assert (p <> "") by by apply isAbsolute_nonempty.
  assert (name <> "") by apply Hname.
  rewrite filter_cons_True by done. rewrite filter_cons_True by done.
  rewrite filter_nil.
  change (glue [p; name]) with (p +:+ "/" +:+ name).
  unfold normalize. rewrite decide_False by by destruct p.
  rewrite isAbsolute_app by done.
  change (p +:+ "/" +:+ name) with (p +:+ ("/" +:+ name)) at 1.
  rewrite ends_with_slash_app by done.
  simpl negb. unfold normalizeString. rewrite split_slash_app, fold_left_app.
  rewrite split_slash_segment by apply Hname. simpl fold_left.
  fold segs.
  assert (normalize_step false segs name = segs ++ [name]) as ->.
  { unfold normalize_step. destruct Hname as (_ & ? & ? & ?).
    rewrite decide_False by tauto. by rewrite decide_False. }
  assert (glue (segs ++ [name]) <> "") as Hne.
  { destruct segs as [|seg segs']; simpl app.
    - apply Hname.
    - apply Forall_cons in Hsegs as [Hseg _]. apply glue_nonempty, Hseg. }
  rewrite decide_False by done.
  rewrite (ends_with_slash_app "/" name), ends_with_slash_free by apply Hname.
  done.
Qed.

(** Joining a plain name to a normal absolute path appends it. *)
Lemma join_normal segs name :
  Forall plain segs -> segs <> [] -> plain name ->
  join ["/" +:+ glue segs; name] = "/" +:+ glue segs +:+ "/" +:+ name.
Proof.
  intros Hplain Hne Hname.
  destruct (join_absolute_segments ("/" +:+ glue segs) name eq_refl Hname)
    as [_ ->].
  change (split_slash ("/" +:+ glue segs)) with ("" :: split_slash (glue segs)).
  rewrite split_slash_glue by (by try apply plain_slash_free).
  simpl fold_left at 1. rewrite normalize_plain by done. simpl app at 1.
  by rewrite (glue_app segs [name]).
Qed.

(** Resolving a path of plain segments against a normal absolute path
    appends it. *)
Lemma resolve_plain cwd segs segs' :
  Forall plain segs -> segs <> [] -> Forall plain segs' -> segs' <> [] ->
  resolve cwd ["/" +:+ glue segs; glue segs'] =
  "/" +:+ glue segs +:+ "/" +:+ glue segs'.
Proof.
  intros Hplain Hne Hplain' Hne'. unfold resolve. simpl rev. simpl app.
  destruct segs' as [|seg' segs']; [done|].
  apply Forall_cons in Hplain' as [Hseg' Hplain'].
  unfold resolve_loop.
  rewrite decide_False by (apply glue_nonempty, Hseg').
  rewrite (plain_relative seg' segs' Hseg').
  rewrite decide_False by done. simpl isAbsolute. cbv iota beta. simpl negb.
  unfold normalizeString.
  change (("/" +:+ glue segs) +:+ "/" +:+ glue (seg' :: segs') +:+ "/" +:+ "")
    with (String "/" (glue segs +:+ "/" +:+ (glue (seg' :: segs') +:+ "/" +:+ ""))).
  change (split_slash (String "/" ?p)) with ("" :: split_slash p).
  rewrite !split_slash_app.
  rewrite !split_slash_glue;
    [|done|apply plain_slash_free; by constructor|done|by apply plain_slash_free].
  simpl fold_left at 1.
  rewrite fold_left_app, (normalize_plain _ segs) by done.
  change (seg' :: segs' ++ [""]) with ((seg' :: segs') ++ [""]).
  rewrite fold_left_app, (normalize_plain _ (seg' :: segs')) by by constructor.
  change (normalize_step false [] "") with (@nil string).
  simpl fold_left. unfold normalize_step. rewrite decide_True by by left.
  simpl app at 1. by rewrite (glue_app segs (seg' :: segs')).
Qed.

Lemma plain_template : plain "template".
Proof. by repeat split. Qed.

Lemma plain_dot_git : plain ".git".
Proof. by repeat split. Qed.

End Posix.

(** * The GitHub template preparer ([github.ts]) *)
Module Preparer.

Section preparer.
Context {Logger World : Type}.

(** ** What the imports of [github.ts] provide *)

(** The object [parseGitUrl] (package [git-url-parse]) returns, as far as
    [prepare] reads it. *)
Record GitUrl := {
  filepath : string;
  ref : string;
  toString : string -> string
}.

(** The argument of [Git.fromAuth] (package [backend-common]); a [Git]
    client is known by it. *)
Record AuthOptions := {
  username : option string;
  password : option string;
  logger : Logger
}.

Record Git := fromAuth { auth : AuthOptions }.

(** The calls [prepare] awaits. *)
Inductive Operation :=
| GitClone (git : Git) (url dir ref : string)
| FsMove (src dest : string)
| FsRmdir (dir : string).

Variable parseGitUrl : string -> GitUrl.
Variable path_join : list string -> string.
Variable path_resolve : list string -> string.

(** How the remote and the file system answer an operation: the promise
    resolves or rejects, and the world moves on. *)
Variable perform : Operation -> World -> Outcome unit * World.

(** ** Asynchronous code

    An [async] body is a function of the world and of the journal of the
    operations awaited so far; a rejected promise is [Thrown]. *)
Definition Async (A : Type) : Type :=
  World * list Operation -> Outcome A * (World * list Operation).

Definition ret {A} (a : A) : Async A := fun s => (Returned a, s).

Definition bind {A B} (m : Async A) (k : A -> Async B) : Async B :=
  fun s =>
    match m s with
    | (Returned a, s') => k a s'
    | (Thrown e, s') => (Thrown e, s')
    end.

Definition await (op : Operation) : Async unit :=
  fun '(w, journal) =>
    let '(r, w') := perform op w in (r, (w', journal ++ [op])).

(** [try { body } catch { handler }]. *)
Definition try_catch {A} (body : Async A) (handler : JsError -> Async A)
  : Async A :=
  fun s =>
    match body s with
    | (Returned a, s') => (Returned a, s')
    | (Thrown e, s') => handler e s'
    end.

Notation "m ;; k" := (bind m (fun _ => k))
  (at level 100, k at level 200, right associativity).

(** ** [GithubPreparer] *)

Record Config := { token : option string }.

(** Modelled from the spec: the input of [prepare], declared in
    [./types]. *)
Record PreparerOptions := {
  url : string;
  workspacePath : string;
  opt_logger : Logger
}.

(** The test [this.config.token ? ... : ...]: an absent token and the
    empty string are both falsy. *)
Definition truthy (s : option string) : bool :=
  match s with
  | Some t => negb (String.eqb t "")
  | None => false
  end.

Definition prepare (config : Config) (options : PreparerOptions)
  : Async unit :=
  let parsedGitUrl := parseGitUrl (url options) in
  let checkoutPath := path_join [workspacePath options; "checkout"] in
  let targetPath := path_join [workspacePath options; "template"] in
  let fullPathToTemplate :=
    path_resolve [checkoutPath; filepath parsedGitUrl] in
  let git :=
    if truthy (token config)
    then fromAuth {| username := token config;
                     password := Some "x-oauth-basic";
                     logger := opt_logger options |}
    else fromAuth {| username := None; password := None;
                     logger := opt_logger options |} in
  await (GitClone git (toString parsedGitUrl "https") checkoutPath
                  (ref parsedGitUrl)) ;;
  await (FsMove fullPathToTemplate targetPath) ;;
  try_catch (await (FsRmdir (path_join [targetPath; ".git"])))
            (fun _ => ret tt).

(** ** Running [prepare] *)

(** The operations of one call, in the order the body awaits them. *)
Definition clone_of (config : Config) (options : PreparerOptions)
  : Operation :=
  let parsedGitUrl := parseGitUrl (url options) in
  GitClone
    (if truthy (token config)
     then fromAuth {| username := token config;
                      password := Some "x-oauth-basic";
                      logger := opt_logger options |}
     else fromAuth {| username := None; password := None;
                      logger := opt_logger options |})
    (toString parsedGitUrl "https")
    (path_join [workspacePath options; "checkout"])
    (ref parsedGitUrl).

Definition move_of (options : PreparerOptions) : Operation :=
  FsMove (path_resolve [path_join [workspacePath options; "checkout"];
                        filepath (parseGitUrl (url options))])
         (path_join [workspacePath options; "template"]).

Definition rmdir_of (options : PreparerOptions) : Operation :=
  FsRmdir (path_join [path_join [workspacePath options; "template"]; ".git"]).

Lemma prepare_run config options w journal :
  prepare config options (w, journal) =
  match perform (clone_of config options) w with
  | (Thrown e, w1) => (Thrown e, (w1, journal ++ [clone_of config options]))
  | (Returned _, w1) =>
      match perform (move_of options) w1 with
      | (Thrown e, w2) =>
          (Thrown e,
           (w2, journal ++ [clone_of config options; move_of options]))
      | (Returned _, w2) =>
          (Returned tt,
           ((perform (rmdir_of options) w2).2,
            journal ++ [clone_of config options; move_of options;
                        rmdir_of options]))
      end
  end.
Proof.
  unfold prepare, bind, await, try_catch, ret.
  fold (clone_of config options) (move_of options) (rmdir_of options).
  destruct (perform (clone_of config options) w) as [[[]|e] w1]; [|done].
  destruct (perform (move_of options) w1) as [[[]|e] w2];
    rewrite <- ?app_assoc; [|done].
  by destruct (perform (rmdir_of options) w2) as [[[]|e] w3];
    rewrite <- ?app_assoc.
Qed.

(** C5: an error of the clone or of the move is the error [prepare] throws,
    and nothing is awaited after it: the clone is not tried again and the
    checkout directory is not removed. After a successful move, [prepare]
    returns whether or not the removal of [targetPath/.git] fails. *)
Theorem prepare_propagates_errors config options w journal :
  let checkoutPath := path_join [workspacePath options; "checkout"] in
  let targetPath := path_join [workspacePath options; "template"] in
  let move :=
    FsMove (path_resolve [checkoutPath; filepath (parseGitUrl (url options))])
           targetPath in
  let rmdir := FsRmdir (path_join [targetPath; ".git"]) in
  exists git,
    let clone :=
      GitClone git (toString (parseGitUrl (url options)) "https")
               checkoutPath (ref (parseGitUrl (url options))) in
    (forall e w1,
       perform clone w = (Thrown e, w1) ->
       prepare config options (w, journal) =
         (Thrown e, (w1, journal ++ [clone]))) /\
    (forall u w1 e w2,
       perform clone w = (Returned u, w1) ->
       perform move w1 = (Thrown e, w2) ->
       prepare config options (w, journal) =
         (Thrown e, (w2, journal ++ [clone; move]))) /\
    (forall u w1 u' w2 r w3,
       perform clone w = (Returned u, w1) ->
       perform move w1 = (Returned u', w2) ->
       perform rmdir w2 = (r, w3) ->
       prepare config options (w, journal) =
         (Returned tt, (w3, journal ++ [clone; move; rmdir]))).
Proof.
  simpl. eexists. rewrite prepare_run.
  unfold clone_of, move_of, rmdir_of. split_and!.
  - by intros e w1 ->.
  - by intros u w1 e w2 -> ->.
  - by intros u w1 u' w2 r w3 -> -> ->.
Qed.

End preparer.

(** ** [prepare] on Node's POSIX paths *)

Section posix.
Context {Logger World : Type}.
Variable cwd : string.
Variable parseGitUrl : string -> GitUrl.
Variable perform : @Operation Logger -> World -> Outcome unit * World.

(** C7, as amended: [checkoutPath] is [workspacePath] joined with
    ['checkout'], [targetPath] is [workspacePath] joined with ['template'],
    and [fullPathToTemplate] is [path.resolve(checkoutPath, subpath)], an
    absolute path in a process whose working directory is one (it is
    [checkoutPath] itself when the subpath is empty and [workspacePath] is
    absolute). The first operation is the clone, into
    [checkoutPath] at the parsed ref, and after a successful clone the next
    one moves [fullPathToTemplate] to [targetPath]. The client carries the
    token as username with the password ['x-oauth-basic'] when a non-empty
    token is configured, and no credentials otherwise. *)
Theorem prepare_paths_and_credentials config options w journal :
  let parsedGitUrl := parseGitUrl (url options) in
  let checkoutPath := Posix.join [workspacePath options; "checkout"] in
  let targetPath := Posix.join [workspacePath options; "template"] in
  let fullPathToTemplate :=
    Posix.resolve cwd [checkoutPath; filepath parsedGitUrl] in
  let after :=
    (prepare parseGitUrl Posix.join (Posix.resolve cwd) perform
             config options (w, journal)).2.2 in
  exists git,
    let clone :=
      GitClone git (toString parsedGitUrl "https") checkoutPath
               (ref parsedGitUrl) in
    (exists rest,
       after = journal ++ clone :: rest /\
       (forall u w1, perform clone w = (Returned u, w1) ->
          exists rest', rest = FsMove fullPathToTemplate targetPath :: rest')) /\
    (forall t, token config = Some t -> t <> "" ->
       git = fromAuth {| username := Some t;
                         password := Some "x-oauth-basic";
                         logger := opt_logger options |}) /\
    (token config = None \/ token config = Some "" ->
       git = fromAuth {| username := None; password := None;
                         logger := opt_logger options |}) /\
    (Posix.isAbsolute cwd = true ->
     Posix.isAbsolute fullPathToTemplate = true) /\
    (Posix.isAbsolute (workspacePath options) = true ->
     filepath parsedGitUrl = "" ->
     fullPathToTemplate = checkoutPath).
Proof.
  simpl.
  exists (if truthy (token config)
          then fromAuth {| username := token config;
                           password := Some "x-oauth-basic";
                           logger := opt_logger options |}
          else fromAuth {| username := None; password := None;
                           logger := opt_logger options |}).
  rewrite prepare_run. unfold clone_of, move_of, rmdir_of.
  split_and!.
  - match goal with |- context [perform ?op w] =>
      destruct (perform op w) as [[u|e] w1] eqn:Hclone end.
    + match goal with |- context [perform ?op w1] =>
        destruct (perform op w1) as [[u'|e] w2] end; simpl;
        (eexists; split; [reflexivity|]); intros ? ? _; by eexists.
    + simpl. eexists. split; [reflexivity|]. by intros u w1' ?.
  - intros t Ht Hne. unfold truthy. rewrite Ht.
    by rewrite (proj2 (String.eqb_neq t "") Hne).
  - by intros [-> | ->].
  - apply Posix.resolve_absolute.
  - intros Habs ->. apply Posix.resolve_empty_subpath; [done|].
    apply Posix.plain_checkout.
Qed.

(** X12: for an absolute workspace and a subpath made of plain names (no
    empty segment, no [.] or [..]), every operation of a run stays inside
    the workspace: the clone goes into [workspacePath/checkout], the move
    takes [checkoutPath/subpath] to the different path
    [workspacePath/template], and the only directory removed is
    [targetPath/.git]. *)
Theorem prepare_stays_in_workspace config options w :
  let parsedGitUrl := parseGitUrl (url options) in
  let checkoutPath := Posix.join [workspacePath options; "checkout"] in
  let targetPath := Posix.join [workspacePath options; "template"] in
  Posix.isAbsolute (workspacePath options) = true ->
  Forall Posix.plain (Posix.split_slash (filepath parsedGitUrl)) ->
  checkoutPath <> targetPath /\
  forall op,
    op ∈ (prepare parseGitUrl Posix.join (Posix.resolve cwd) perform
                  config options (w, [])).2.2 ->
    match op with
    | GitClone _ _ dir _ => dir = checkoutPath
    | FsMove src dest =>
        src = checkoutPath +:+ "/" +:+ filepath parsedGitUrl /\
        dest = targetPath /\ src <> dest
    | FsRmdir dir => dir = targetPath +:+ "/.git"
    end.
Proof.
  simpl. intros Habs Hsub.
  destruct (Posix.join_absolute_segments _ "checkout" Habs Posix.plain_checkout)
    as [Hsegs Hcheckout].
  destruct (Posix.join_absolute_segments _ "template" Habs Posix.plain_template)
    as [_ Htemplate].
  set (segs := fold_left (Posix.normalize_step false)
                 (Posix.split_slash (workspacePath options)) []) in *.
  set (sub := Posix.split_slash (filepath (parseGitUrl (url options)))) in *.
  assert (Hfree : forall l, Forall Posix.plain l ->
                            Forall (fun seg => Posix.slash_free seg = true) l).
  { intros l. apply Posix.plain_slash_free. }
  assert (Hplain_c : Forall Posix.plain (segs ++ ["checkout"])).
  { apply Forall_app. split; [done|]. apply Forall_singleton.
    apply Posix.plain_checkout. }
  assert (Hplain_t : Forall Posix.plain (segs ++ ["template"])).
  { apply Forall_app. split; [done|]. apply Forall_singleton.
    apply Posix.plain_template. }
  assert (Hsub_ne : sub <> []).
  { unfold sub. by destruct (Posix.split_slash_cons
                              (filepath (parseGitUrl (url options))))
      as (seg & rest & ->). }
  assert (Hsrc : Posix.resolve cwd
                   [Posix.join [workspacePath options; "checkout"];
                    filepath (parseGitUrl (url options))] =
                 Posix.join [workspacePath options; "checkout"] +:+ "/" +:+
                 filepath (parseGitUrl (url options))).
  { rewrite Hcheckout.
    rewrite <- (Posix.glue_split_slash (filepath (parseGitUrl (url options)))).
    fold sub. rewrite Posix.resolve_plain; [done..|by destruct segs|done|done]. }
  assert (Hdiff : forall extra,
            Forall Posix.plain extra ->
            "/" +:+ Posix.glue (segs ++ "checkout" :: extra) <>
            "/" +:+ Posix.glue (segs ++ ["template"])).
  { intros extra Hextra [= Heq]. change ("" +:+ ?p) with p in Heq.
    assert (Hsplit := f_equal Posix.split_slash Heq).
    rewrite !Posix.split_slash_glue in Hsplit;
      [|by destruct segs|by apply Hfree|by destruct segs|apply Hfree].
    - by apply app_inv_head in Hsplit.
    - apply Forall_app. split; [done|]. constructor; [|done].
      apply Posix.plain_checkout. }
  split.
  - rewrite Hcheckout, Htemplate. apply (Hdiff []). constructor.
  - intros op Hop. rewrite prepare_run in Hop.
    assert (op = clone_of parseGitUrl Posix.join config options \/
            op = move_of parseGitUrl Posix.join (Posix.resolve cwd) options \/
            op = rmdir_of Posix.join options) as [-> | [-> | ->]].
    { destruct (perform _ w) as [[u|e] w1]; simpl in Hop.
      - destruct (perform _ w1) as [[u'|e] w2]; simpl in Hop; set_solver.
      - set_solver. }
    + done.
    + unfold move_of. split; [done|]. split; [done|].
      rewrite Hsrc, Hcheckout, Htemplate.
      rewrite <- (Posix.glue_split_slash (filepath (parseGitUrl (url options)))).
      fold sub.
      change (("/" +:+ ?a) +:+ ?b) with ("/" +:+ (a +:+ b)).
      rewrite <- Posix.glue_app by (by try destruct segs).
      rewrite <- app_assoc. apply Hdiff. done.
    + unfold rmdir_of. rewrite Htemplate.
      apply Posix.join_normal; [done|by destruct segs|apply Posix.plain_dot_git].
Qed.

End posix.

(** ** Sample runs *)

(** A parser that knows two URLs: a template directory on a branch, and the
    root of a repository. *)
Definition sample_parseGitUrl (u : string) : GitUrl :=
  if decide (u = "https://github.com/org/repo/tree/main/templates/foo")
  then {| filepath := "templates/foo"; ref := "main";
          toString := fun _ => "https://github.com/org/repo" |}
  else {| filepath := ""; ref := ""; toString := fun _ => u |}.

(** Three worlds: everything succeeds, the remote cannot be reached, the
    moved template has no [.git] directory to remove. *)
Definition all_fine (op : @Operation unit) (w : unit) : Outcome unit * unit :=
  (Returned tt, w).

Definition offline (op : @Operation unit) (w : unit) : Outcome unit * unit :=
  match op with
  | GitClone _ _ _ _ => (Thrown (MkError "unreachable host"), w)
  | _ => (Returned tt, w)
  end.

Definition no_git_dir (op : @Operation unit) (w : unit)
  : Outcome unit * unit :=
  match op with
  | FsRmdir _ => (Thrown (MkError "ENOENT"), w)
  | _ => (Returned tt, w)
  end.

Definition sample_prepare
    (perform : @Operation unit -> unit -> Outcome unit * unit) :=
  prepare sample_parseGitUrl Posix.join (Posix.resolve "/srv/backstage")
          perform.

Definition template_request : @PreparerOptions unit :=
  {| url := "https://github.com/org/repo/tree/main/templates/foo";
     workspacePath := "/tmp/ws"; opt_logger := tt |}.

Definition relative_request : @PreparerOptions unit :=
  {| url := "https://github.com/org/repo";
     workspacePath := "work"; opt_logger := tt |}.

Example sample_template_run :
  sample_prepare all_fine {| token := Some "s3cret" |} template_request
                 (tt, []) =
  (Returned tt,
   (tt,
    [GitClone (fromAuth {| username := Some "s3cret";
                           password := Some "x-oauth-basic";
                           logger := tt |})
              "https://github.com/org/repo" "/tmp/ws/checkout" "main";
     FsMove "/tmp/ws/checkout/templates/foo" "/tmp/ws/template";
     FsRmdir "/tmp/ws/template/.git"])).
Proof. vm_compute. reflexivity. Qed.

(** C7, as first stated, fails for a relative workspace: the directory
    moved is not [checkoutPath] joined with the (empty) subpath, and not
    [checkoutPath], but that path below the working directory. And a token
    configured as the empty string is not used: the clone is anonymous. *)
Lemma relative_workspace_resolved :
  (sample_prepare all_fine {| token := Some "" |} relative_request
                  (tt, [])).2.2
  = [GitClone (fromAuth {| username := None; password := None;
                           logger := tt |})
              "https://github.com/org/repo" "work/checkout" "";
     FsMove "/srv/backstage/work/checkout" "work/template";
     FsRmdir "work/template/.git"] /\
  filepath (sample_parseGitUrl (url relative_request)) = "" /\
  Posix.join [workspacePath relative_request; "checkout"] = "work/checkout" /\
  "/srv/backstage/work/checkout" <> Posix.join ["work/checkout"; ""] /\
  "/srv/backstage/work/checkout" <> "work/checkout".
Proof. by vm_compute. Qed.

Lemma prepare_propagates_errors_witness :
  (sample_prepare offline {| token := None |} template_request (tt, [])).1 =
    Thrown (MkError "unreachable host") /\
  length (sample_prepare offline {| token := None |} template_request
                         (tt, [])).2.2 = 1 /\
  (sample_prepare no_git_dir {| token := None |} template_request
                  (tt, [])).1 = Returned tt.
Proof.
  destruct (prepare_propagates_errors
              sample_parseGitUrl Posix.join (Posix.resolve "/srv/backstage")
              offline {| token := None |} template_request tt [])
    as (git & Hclone & _ & _).
  destruct (prepare_propagates_errors
              sample_parseGitUrl Posix.join (Posix.resolve "/srv/backstage")
              no_git_dir {| token := None |} template_request tt [])
    as (git' & _ & _ & Hrmdir).
  unfold sample_prepare.
  rewrite (Hclone _ tt eq_refl).
  rewrite (Hrmdir tt tt tt tt (Thrown (MkError "ENOENT")) tt
                  eq_refl eq_refl eq_refl).
  by repeat split.
Defined.

Lemma prepare_paths_and_credentials_witness :
  exists git rest,
    (sample_prepare all_fine {| token := Some "s3cret" |} template_request
                    (tt, [])).2.2 =
      GitClone git "https://github.com/org/repo" "/tmp/ws/checkout" "main"
      :: FsMove "/tmp/ws/checkout/templates/foo" "/tmp/ws/template"
      :: rest /\
    git = fromAuth {| username := Some "s3cret";
                      password := Some "x-oauth-basic"; logger := tt |}.
Proof.
  destruct (prepare_paths_and_credentials
              "/srv/backstage" sample_parseGitUrl all_fine
              {| token := Some "s3cret" |} template_request tt [])
    as (git & (rest & Hjournal & Hmove) & Htoken & _).
  destruct (Hmove tt tt eq_refl) as (rest' & ->).
  exists git, rest'. split; [exact Hjournal|].
  apply (Htoken "s3cret" eq_refl). discriminate.
Defined.

Lemma prepare_stays_in_workspace_witness :
  Posix.isAbsolute (workspacePath template_request) = true /\
  Forall Posix.plain
    (Posix.split_slash
       (filepath (sample_parseGitUrl (url template_request)))) /\
  Posix.join [workspacePath template_request; "checkout"] <>
  Posix.join [workspacePath template_request; "template"] /\
  forall op,
    op ∈ (sample_prepare all_fine {| token := None |} template_request
                         (tt, [])).2.2 ->
    match op with
    | GitClone _ _ dir _ => dir = "/tmp/ws/checkout"
    | FsMove src dest =>
        src = "/tmp/ws/checkout/templates/foo" /\
        dest = "/tmp/ws/template" /\ src <> dest
    | FsRmdir dir => dir = "/tmp/ws/template/.git"
    end.
Proof.
  assert (Forall Posix.plain
            (Posix.split_slash
               (filepath (sample_parseGitUrl (url template_request)))))
    as Hsub by (repeat constructor; discriminate).
  split; [reflexivity|]. split; [exact Hsub|].
  exact (prepare_stays_in_workspace
           "/srv/backstage" sample_parseGitUrl all_fine
           {| token := None |} template_request tt eq_refl Hsub).
Defined.

End Preparer.
